(** * pdf-fuzzy-web: a shallow embedding of [custom-logic.js]

    The page script loads a PDF through PDF.js, rebuilds text lines from the
    positioned fragments of every page, searches them with Fuse.js (with a
    substring fallback) and highlights a hit on the rendered page.

    Conventions of the embedding:
    - a JavaScript string is the list of its UTF-16 code units;
    - a JavaScript number is a rational ([Q]), as every finite double is;
      the additions and subtractions of the line reconstruction round
      their exact result to the nearest double ([round64]), the arithmetic
      of the highlight is exact; NaN and the infinities are left out, the
      numbers of a document staying within the range of the doubles;
    - the globals of the script and the DOM elements it touches form one
      record [World], threaded through a state-and-exception monad;
    - PDF.js, Fuse.js and the string built-ins that the script only calls
      are parameters, gathered in the record [Libs]; [js_toLowerCase]
      writes the built-in lower case out for ASCII and Greek letters. *)

From Stdlib Require Import List NArith ZArith QArith Qabs Qminmax Qround.
From Stdlib Require Import Qpower.
From Stdlib Require Import String Ascii DecimalString Bool Lia Lqa.
From stdpp Require Import base gmap.
From Stdlib Require Import Sorted.
Import ListNotations.

Set Implicit Arguments.
Set Warnings "-register-all".

(* ================================================================== *)
(** * Part I: definitions                                              *)
(* ================================================================== *)

(** ** Strings *)

Definition jschar := N.
Definition jsstring := list jschar.

(** An ASCII literal of the source, as code units. *)
Definition lit (s : string) : jsstring :=
  map N_of_ascii (list_ascii_of_string s).

Arguments lit s%_string.

(** [`${n}`] for a non-negative integer. *)
Definition dec (n : nat) : jsstring :=
  lit (NilEmpty.string_of_uint (Nat.to_uint n)).

Definition SP : jschar := 32%N.
Definition AMP : jschar := 38%N.
Definition LT : jschar := 60%N.
Definition GT : jschar := 62%N.
Definition QUOT : jschar := 34%N.
Definition EM_DASH : jschar := 8212%N.
Definition ELLIPSIS : jschar := 8230%N.

(** The class [\s] of a regular expression, which is also what [trim]
    strips: TAB, LF, VT, FF, CR, SPACE, NBSP, U+1680, U+2000..U+200A,
    U+2028, U+2029, U+202F, U+205F, U+3000 and U+FEFF. *)
Definition is_space (c : jschar) : bool :=
  existsb (N.eqb c)
    [9; 10; 11; 12; 13; 32; 160; 5760; 8232; 8233; 8239; 8287; 12288; 65279]%N
  || (N.leb 8192 c && N.leb c 8202).

(** [s.replace(/\s+/g, ' ')]: every maximal run of white space becomes one
    space.  [in_run] tells that the previous unit belonged to a run that has
    already been replaced. *)
Fixpoint replace_ws_runs (in_run : bool) (s : jsstring) : jsstring :=
  match s with
  | [] => []
  | c :: r =>
      if is_space c
      then (if in_run then replace_ws_runs true r
            else SP :: replace_ws_runs true r)
      else c :: replace_ws_runs false r
  end.

Fixpoint trimStart (s : jsstring) : jsstring :=
  match s with
  | [] => []
  | c :: r => if is_space c then trimStart r else s
  end.

Definition trimEnd (s : jsstring) : jsstring := rev (trimStart (rev s)).

(** [s.trim()] *)
Definition trim (s : jsstring) : jsstring := trimEnd (trimStart s).

(** [l.text.replace(/\s+/g, ' ').trim()] *)
Definition normalize (s : jsstring) : jsstring :=
  trim (replace_ws_runs false s).

Fixpoint startsWith (s q : jsstring) : bool :=
  match q, s with
  | [], _ => true
  | _ :: _, [] => false
  | d :: q', c :: s' => N.eqb c d && startsWith s' q'
  end.

(** [s.includes(q)] *)
Fixpoint includes (s q : jsstring) : bool :=
  startsWith s q ||
  match s with
  | [] => false
  | _ :: r => includes r q
  end.

(** [a === b] on strings *)
Fixpoint jsstring_eqb (a b : jsstring) : bool :=
  match a, b with
  | [], [] => true
  | c :: a', d :: b' => N.eqb c d && jsstring_eqb a' b'
  | _, _ => false
  end.

(** The replacement callback of [escapeHtml]: the object literal indexed by
    the matched character. *)
Definition escape_char (ch : jschar) : jsstring :=
  if N.eqb ch AMP then lit "&amp;"
  else if N.eqb ch LT then lit "&lt;"
  else if N.eqb ch GT then lit "&gt;"
  else if N.eqb ch QUOT then lit "&quot;"
  else [ch].

(** [(s + '').replace(/[...]/g, ch => ...)] where the class lists the
    ampersand, the two angle brackets and the double quote: it matches one
    code unit at a time, and every other unit is copied. *)
Definition escapeHtml (s : jsstring) : jsstring := flat_map escape_char s.

(** ** Completions *)

(** A thrown value (or the reason of a rejected promise). *)
Definition exn := string.

Inductive completion (A : Type) : Type :=
| Normal (a : A)
| Throw (e : exn).
Arguments Normal {A} a.
Arguments Throw {A} e.

(** ** What PDF.js gives *)

(** An entry of [textContent.items]; [width], [height] and [str] may be
    missing. *)
Module Item.
Record t := Make {
  str : option jsstring;
  transform : Q * Q * Q * Q * Q * Q;
  width : option Q;
  height : option Q
}.
End Item.

Definition tx3 (it : Item.t) : Q :=
  let '(_, _, _, d, _, _) := Item.transform it in d.
Definition tx4 (it : Item.t) : Q :=
  let '(_, _, _, _, e, _) := Item.transform it in e.
Definition tx5 (it : Item.t) : Q :=
  let '(_, _, _, _, _, f) := Item.transform it in f.

Definition Rect4 : Type := Q * Q * Q * Q.

Record Viewport := {
  vp_width : Q;
  vp_height : Q;
  convertToViewportRectangle : Rect4 -> completion Rect4
}.

Record Page := {
  getTextContent : completion (list Item.t);
  getViewport : Q -> Viewport;
  render : Viewport -> completion unit
}.

Record Pdf := {
  numPages : nat;
  getPage : nat -> completion Page
}.

Record File := {
  file_type : jsstring;
  file_name : jsstring;
  arrayBuffer : completion (list N)
}.

(** ** Numbers *)

Local Open Scope Q_scope.

Definition pow2 (e : Z) : Q := Qpower 2 e.

(** The binary exponent of a positive rational: the [e] with
    [2^e <= q < 2^(e+1)]. *)
Definition ilog2 (q : Q) : Z :=
  let k := (Z.log2 (Qnum q) - Z.log2 (Zpos (Qden q)))%Z in
  if Qle_bool (pow2 k) q then k else (k - 1)%Z.

(** The nearest integer, the even one of two that are equally near. *)
Definition round_half_even (q : Q) : Z :=
  let f := Qfloor q in
  match Qcompare (q - inject_Z f) (1 # 2) with
  | Lt => f
  | Gt => (f + 1)%Z
  | Eq => if Z.even f then f else (f + 1)%Z
  end.

(** The exponent of the last place of the double that holds [q]: 53
    significant bits, and no place below [2^-1074]. *)
Definition ulp_exp (q : Q) : Z := Z.max (ilog2 q - 52) (-1074).

Definition round_pos (q : Q) : Q :=
  inject_Z (round_half_even (q / pow2 (ulp_exp q))) * pow2 (ulp_exp q).

(** The double nearest to [q], ties to even: what an operation on doubles
    returns for the exact result [q] (overflow apart). *)
Definition round64 (q : Q) : Q :=
  match Qcompare q 0 with
  | Eq => 0
  | Gt => round_pos q
  | Lt => - round_pos (- q)
  end.

(** [a + b] and [a - b] on numbers. *)
Definition js_add (a b : Q) : Q := round64 (a + b).
Definition js_sub (a b : Q) : Q := round64 (a - b).

(** ** Lines *)

(** An element of [corpus]: [{text, pageNum, x, y, width, height}]. *)
Module Line.
Record t := Make {
  text : jsstring;
  x : Q;
  y : Q;
  width : Q;
  height : Q;
  pageNum : nat
}.
Definition with_text (l : t) (s : jsstring) : t :=
  Make s (x l) (y l) (width l) (height l) (pageNum l).
End Line.

Local Open Scope Q_scope.

(** [item.width || 0] *)
Definition item_w (it : Item.t) : Q :=
  match Item.width it with Some w => w | None => 0 end.

(** [(item.height != null) ? item.height : Math.max(Math.abs(tx[3]), 10)] *)
Definition item_h (it : Item.t) : Q :=
  match Item.height it with
  | Some h => h
  | None => Qmax (Qabs (tx3 it)) 10
  end.

(** [item.str || ''] *)
Definition item_str (it : Item.t) : jsstring :=
  match Item.str it with Some s => s | None => [] end.

(** [current = { text: str, x, y, width: w, height: h, pageNum: i }] *)
Definition start_line (i : nat) (it : Item.t) : Line.t :=
  Line.Make (item_str it) (tx4 it) (tx5 it) (item_w it) (item_h it) i.

(** The three assignments of the middle branch. *)
Definition extend_line (current : Line.t) (it : Item.t) : Line.t :=
  let rightEdge :=
    Qmax (js_add (Line.x current) (Line.width current))
         (js_add (tx4 it) (item_w it)) in
  Line.Make (Line.text current ++ SP :: item_str it)
            (Line.x current) (Line.y current)
            (js_sub rightEdge (Line.x current))
            (Qmax (Line.height current) (item_h it))
            (Line.pageNum current).

(** [Math.abs(current.y - y) <= 3] *)
Definition same_row (current : Line.t) (it : Item.t) : bool :=
  Qle_bool (Qabs (js_sub (Line.y current) (tx5 it))) 3.

(** One turn of [for (const item of textContent.items)], on the pair
    [(lines, current)]. *)
Definition line_step (i : nat) (st : list Line.t * option Line.t)
    (it : Item.t) : list Line.t * option Line.t :=
  match st with
  | (lines, None) => (lines, Some (start_line i it))
  | (lines, Some current) =>
      if same_row current it
      then (lines, Some (extend_line current it))
      else (lines ++ [current], Some (start_line i it))
  end.

Definition line_loop (i : nat) (items : list Item.t)
  : list Line.t * option Line.t :=
  fold_left (line_step i) items ([], None).

(** [if (current) lines.push(current)] *)
Definition flush (st : list Line.t * option Line.t) : list Line.t :=
  match st with
  | (lines, Some current) => lines ++ [current]
  | (lines, None) => lines
  end.

(** The [// normalize] loop: what it pushes to [out] for one page. *)
Definition normalize_lines (lines : list Line.t) : list Line.t :=
  flat_map (fun l =>
    let text := normalize (Line.text l) in
    if (0 <? List.length text)%nat then [Line.with_text l text] else [])
    lines.

(** The body of the page loop after the two awaits. *)
Definition page_lines (i : nat) (items : list Item.t) : list Line.t :=
  normalize_lines (flush (line_loop i items)).

(** [extractTextCorpus]: pages [i .. i + n - 1], appended to [out]. *)
Fixpoint extract_from (pdf : Pdf) (i n : nat) (out : list Line.t)
  : completion (list Line.t) :=
  match n with
  | O => Normal out
  | S n' =>
      match getPage pdf i with
      | Throw e => Throw e
      | Normal page =>
          match getTextContent page with
          | Throw e => Throw e
          | Normal items =>
              extract_from pdf (S i) n' (out ++ page_lines i items)
          end
      end
  end.

Definition extractTextCorpus (pdf : Pdf) : completion (list Line.t) :=
  extract_from pdf 1 (numPages pdf) [].

(** ** The document tree *)

(** An element: tag, [id], the tokens of [className], the pixel lengths set
    through [style], and the children. *)
Inductive node : Type :=
| Element (tag : string) (id : jsstring) (classList : list string)
          (style : list (string * Q)) (children : list node).

Arguments Element tag%_string id classList style children.

Definition node_id (n : node) : jsstring :=
  match n with Element _ i _ _ _ => i end.
Definition node_classes (n : node) : list string :=
  match n with Element _ _ c _ _ => c end.
Definition node_children (n : node) : list node :=
  match n with Element _ _ _ _ ch => ch end.

Definition has_class (cls : string) (n : node) : bool :=
  existsb (String.eqb cls) (node_classes n).

Arguments has_class cls%_string n.

(** [parent.appendChild(child)] *)
Definition appendChild (parent child : node) : node :=
  match parent with
  | Element t i c s ch => Element t i c s (ch ++ [child])
  end.

(** [wrapper.querySelectorAll('.highlight').forEach(e => e.remove())]:
    every descendant carrying the class leaves its parent, with its own
    subtree. *)
Fixpoint remove_highlights (n : node) : node :=
  match n with
  | Element t i c s ch =>
      Element t i c s
        ((fix go (l : list node) : list node :=
            match l with
            | [] => []
            | k :: r =>
                if has_class "highlight" k then go r
                else remove_highlights k :: go r
            end) ch)
  end.

(** [wrapper.querySelectorAll('.highlight').length] *)
Fixpoint count_highlights (n : node) : nat :=
  match n with
  | Element _ _ _ _ ch =>
      (fix go (l : list node) : nat :=
         match l with
         | [] => O
         | k :: r =>
             ((if has_class "highlight" k then 1 else 0)
              + count_highlights k + go r)%nat
         end) ch
  end.

(** [`page-${pageNum}`] *)
Definition page_id (pageNum : nat) : jsstring := lit "page-" ++ dec pageNum.

(** ** The page and its globals *)

(** A hit: [{item, score}]. *)
Record Result := { item : Line.t; score : option Q }.

(** One [li] of the list built by [renderResults]: the markup of its button
    and the line its click handler closes over. *)
Record Entry := { label : jsstring; target : Line.t }.

(** What [resultsPanel] shows: markup assigned to [innerHTML], or the
    [ul.matches] list. *)
Inductive Panel : Type :=
| PanelHtml (html : jsstring)
| PanelList (entries : list Entry).

Record World := {
  gPdf : option Pdf;
  corpus : list Line.t;
  renderedPages : gset nat;
  pdfContainer : list node;          (* its children *)
  statusEl : jsstring;               (* textContent *)
  resultsPanel : Panel;
  pageCountDisplay : jsstring;       (* textContent *)
  searchBox : jsstring;              (* value *)
  thresholdInput : jsstring;         (* value *)
  alerts : list jsstring;            (* every alert(...) so far *)
  console : list (string * exn);     (* console.error / console.warn *)
  timers : list (N * node)           (* setTimeout: delay, element to remove *)
}.

Definition set_gPdf (v : option Pdf) (w : World) : World :=
  {| gPdf := v; corpus := corpus w; renderedPages := renderedPages w;
     pdfContainer := pdfContainer w; statusEl := statusEl w;
     resultsPanel := resultsPanel w; pageCountDisplay := pageCountDisplay w;
     searchBox := searchBox w; thresholdInput := thresholdInput w;
     alerts := alerts w; console := console w; timers := timers w |}.
Definition set_corpus (v : list Line.t) (w : World) : World :=
  {| gPdf := gPdf w; corpus := v; renderedPages := renderedPages w;
     pdfContainer := pdfContainer w; statusEl := statusEl w;
     resultsPanel := resultsPanel w; pageCountDisplay := pageCountDisplay w;
     searchBox := searchBox w; thresholdInput := thresholdInput w;
     alerts := alerts w; console := console w; timers := timers w |}.
Definition set_renderedPages (v : gset nat) (w : World) : World :=
  {| gPdf := gPdf w; corpus := corpus w; renderedPages := v;
     pdfContainer := pdfContainer w; statusEl := statusEl w;
     resultsPanel := resultsPanel w; pageCountDisplay := pageCountDisplay w;
     searchBox := searchBox w; thresholdInput := thresholdInput w;
     alerts := alerts w; console := console w; timers := timers w |}.
Definition set_pdfContainer (v : list node) (w : World) : World :=
  {| gPdf := gPdf w; corpus := corpus w; renderedPages := renderedPages w;
     pdfContainer := v; statusEl := statusEl w;
     resultsPanel := resultsPanel w; pageCountDisplay := pageCountDisplay w;
     searchBox := searchBox w; thresholdInput := thresholdInput w;
     alerts := alerts w; console := console w; timers := timers w |}.
Definition set_statusEl (v : jsstring) (w : World) : World :=
  {| gPdf := gPdf w; corpus := corpus w; renderedPages := renderedPages w;
     pdfContainer := pdfContainer w; statusEl := v;
     resultsPanel := resultsPanel w; pageCountDisplay := pageCountDisplay w;
     searchBox := searchBox w; thresholdInput := thresholdInput w;
     alerts := alerts w; console := console w; timers := timers w |}.
Definition set_resultsPanel (v : Panel) (w : World) : World :=
  {| gPdf := gPdf w; corpus := corpus w; renderedPages := renderedPages w;
     pdfContainer := pdfContainer w; statusEl := statusEl w;
     resultsPanel := v; pageCountDisplay := pageCountDisplay w;
     searchBox := searchBox w; thresholdInput := thresholdInput w;
     alerts := alerts w; console := console w; timers := timers w |}.
Definition set_pageCountDisplay (v : jsstring) (w : World) : World :=
  {| gPdf := gPdf w; corpus := corpus w; renderedPages := renderedPages w;
     pdfContainer := pdfContainer w; statusEl := statusEl w;
     resultsPanel := resultsPanel w; pageCountDisplay := v;
     searchBox := searchBox w; thresholdInput := thresholdInput w;
     alerts := alerts w; console := console w; timers := timers w |}.
Definition set_alerts (v : list jsstring) (w : World) : World :=
  {| gPdf := gPdf w; corpus := corpus w; renderedPages := renderedPages w;
     pdfContainer := pdfContainer w; statusEl := statusEl w;
     resultsPanel := resultsPanel w; pageCountDisplay := pageCountDisplay w;
     searchBox := searchBox w; thresholdInput := thresholdInput w;
     alerts := v; console := console w; timers := timers w |}.
Definition set_console (v : list (string * exn)) (w : World) : World :=
  {| gPdf := gPdf w; corpus := corpus w; renderedPages := renderedPages w;
     pdfContainer := pdfContainer w; statusEl := statusEl w;
     resultsPanel := resultsPanel w; pageCountDisplay := pageCountDisplay w;
     searchBox := searchBox w; thresholdInput := thresholdInput w;
     alerts := alerts w; console := v; timers := timers w |}.
Definition set_timers (v : list (N * node)) (w : World) : World :=
  {| gPdf := gPdf w; corpus := corpus w; renderedPages := renderedPages w;
     pdfContainer := pdfContainer w; statusEl := statusEl w;
     resultsPanel := resultsPanel w; pageCountDisplay := pageCountDisplay w;
     searchBox := searchBox w; thresholdInput := thresholdInput w;
     alerts := alerts w; console := console w; timers := v |}.

(** ** State and exceptions *)

(** A function of the script runs from one world to the next and either
    returns or throws; the awaits are run to completion in program order. *)
Definition M (A : Type) : Type := World -> completion A * World.

#[export] Instance M_ret : MRet M := fun A (a : A) w => (Normal a, w).
#[export] Instance M_bind : MBind M := fun A B (k : A -> M B) (m : M A) w =>
  match m w with
  | (Normal a, w') => k a w'
  | (Throw e, w') => (Throw e, w')
  end.

Definition gets {A} (f : World -> A) : M A := fun w => (Normal (f w), w).
Definition modify (f : World -> World) : M unit := fun w => (Normal tt, f w).
Definition throw {A} (e : exn) : M A := fun w => (Throw e, w).

Arguments throw {A} e%_string.

(** [await c] for a promise that has settled as [c]. *)
Definition await {A} (c : completion A) : M A := fun w => (c, w).

(** [try { body } catch (err) { handler }]: what [body] did to the world
    before it threw stays done. *)
Definition try_catch {A} (body : M A) (handler : exn -> M A) : M A :=
  fun w =>
    match body w with
    | (Normal a, w') => (Normal a, w')
    | (Throw e, w') => handler e w'
    end.

Definition alert (msg : jsstring) : M unit :=
  modify (fun w => set_alerts (alerts w ++ [msg]) w).
Definition console_log (what : string) (err : exn) : M unit :=
  modify (fun w => set_console (console w ++ [(what, err)]) w).

Arguments console_log what%_string err.

(** The markup [<div class='muted'>msg</div>] of the source, which writes
    the attribute between double quotes. *)
Definition muted (msg : string) : jsstring :=
  lit "<div class=" ++ QUOT :: lit "muted" ++ QUOT :: lit ">" ++ lit msg
  ++ lit "</div>".

Arguments muted msg%_string.

(** [function setStatus(msg) { statusEl.textContent = msg; }] *)
Definition setStatus (msg : jsstring) : M unit := modify (set_statusEl msg).

(** [function clearAll()] *)
Definition clearAll : M unit :=
  modify (set_gPdf None);;
  modify (set_corpus []);;
  modify (set_renderedPages ∅);;
  modify (set_pdfContainer []);;
  modify (set_resultsPanel (PanelHtml (muted "No results yet.")));;
  setStatus (lit "No PDF loaded.");;
  modify (set_pageCountDisplay (lit "pages: ?")).

(** ** The libraries *)

(** The options object handed to [new Fuse(corpus, {...})]. *)
Record FuseOptions := {
  keys : list string;
  threshold : option Q;              (* [None] is NaN *)
  includeScore : bool;
  ignoreLocation : bool;
  findAllMatches : bool;
  minMatchCharLength : nat;
  distance : N
}.

(** What the script calls and does not define. *)
Record Libs := {
  (** [pdfjsLib.getDocument({ data }).promise] *)
  getDocument : list N -> completion Pdf;
  (** [pdfjsLib.renderTextLayer({...}).promise]: the spans put in the
      container *)
  renderTextLayer : list Item.t -> Viewport -> completion (list node);
  (** [new Fuse(corpus, options).search(q)] *)
  fuse_search : list Line.t -> FuseOptions -> jsstring -> list Result;
  (** [String.prototype.toLowerCase] *)
  toLowerCase : jsstring -> jsstring;
  (** [Number.prototype.toFixed] *)
  toFixed : Q -> nat -> jsstring;
  (** [parseFloat]; [None] is NaN *)
  parseFloat : jsstring -> option Q
}.

(** [Math.ceil] *)
Definition ceil (q : Q) : Q := inject_Z (Qceiling q).

Section Program.
Context (libs : Libs).

(** [document.getElementById(id)], over the pages of the container. *)
Definition getElementById (ident : jsstring) (w : World) : option node :=
  List.find (fun n => jsstring_eqb (node_id n) ident) (pdfContainer w).

(** The wrapper of [renderPage] once the canvas and the text layer are
    appended; [spans] is what the text layer holds. *)
Definition page_wrapper (pageNum : nat) (viewport : Viewport)
    (spans : list node) : node :=
  let cw := ceil (vp_width viewport) in
  let ch := ceil (vp_height viewport) in
  Element "div" (page_id pageNum) ["page-wrapper"%string]
    [("width"%string, cw); ("height"%string, ch)]
    [Element "canvas" [] [] [("width"%string, cw); ("height"%string, ch)] [];
     Element "div" [] ["textLayer"%string]
       [("width"%string, cw); ("height"%string, ch)] spans].

(** [async function renderPage(pageNum)] *)
Definition renderPage (pageNum : nat) : M unit :=
  present ← gets (getElementById (page_id pageNum));
  match present with
  | Some _ => mret tt
  | None =>
      doc ← gets gPdf;
      match doc with
      | None => throw "TypeError: gPdf is null"
      | Some pdf =>
          page ← await (getPage pdf pageNum);
          let viewport := getViewport page (3 # 2) in
          modify (fun w => set_pdfContainer
            (pdfContainer w ++ [page_wrapper pageNum viewport []]) w);;
          (* the elements of the array given to [Promise.all] are
             evaluated first; a rejection of either promise rejects the
             whole *)
          let rendering := render page viewport in
          textContent ← await (getTextContent page);
          let layer := renderTextLayer libs textContent viewport in
          match layer with
          | Normal spans =>
              modify (fun w => set_pdfContainer
                (removelast (pdfContainer w)
                 ++ [page_wrapper pageNum viewport spans]) w)
          | Throw _ => mret tt
          end;;
          await rendering;;
          await layer;;
          modify (fun w => set_renderedPages ({[pageNum]} ∪ renderedPages w) w)
      end
  end.

(** [async function ensurePageRendered(pageNum)]; the queue runs the
    renders one after the other and its [catch] logs a failure. *)
Definition ensurePageRendered (pageNum : nat) : M unit :=
  doc ← gets gPdf;
  match doc with
  | None => mret tt
  | Some _ =>
      present ← gets (getElementById (page_id pageNum));
      match present with
      | Some _ => mret tt
      | None =>
          try_catch (renderPage pageNum)
                    (fun err => console_log "Render error" err)
      end
  end.

(** What [loadPdfFile] runs under its [try]. *)
Definition load_body (data : list N) : M unit :=
  pdf ← await (getDocument libs data);
  modify (set_gPdf (Some pdf));;
  modify (set_pageCountDisplay (lit "pages: " ++ dec (numPages pdf)));;
  setStatus (lit "PDF loaded " ++ EM_DASH :: lit " " ++ dec (numPages pdf)
             ++ lit " pages. Extracting text (this may take a few seconds)...");;
  lines ← await (extractTextCorpus pdf);
  modify (set_corpus lines);;
  setStatus (lit "Extracted " ++ dec (List.length lines)
             ++ lit " lines. Ready to search.");;
  ensurePageRendered 1.

(** [async function loadPdfFile(file)] *)
Definition loadPdfFile (file : option File) : M unit :=
  match file with
  | None => mret tt
  | Some f =>
      if negb (jsstring_eqb (file_type f) (lit "application/pdf"))
      then alert (lit "Please provide a PDF file.")
      else
        clearAll;;
        setStatus (lit "Reading " ++ file_name f ++ lit "...");;
        data ← await (arrayBuffer f);
        try_catch (load_body data)
          (fun err =>
             console_log "Failed to load PDF:" err;;
             setStatus (lit "Error loading PDF. See console."))
  end.

(** [function renderResults(matches)] *)
Definition result_label (idx : nat) (m : Result) : jsstring :=
  let it := item m in
  let score_text :=
    match score m with
    | Some sc => lit " (score " ++ toFixed libs sc 3 ++ lit ")"
    | None => []
    end in
  let preview :=
    if (160 <? List.length (Line.text it))%nat
    then firstn 157 (Line.text it) ++ [ELLIPSIS]
    else Line.text it in
  dec (idx + 1) ++ lit ". Page " ++ dec (Line.pageNum it) ++ score_text
  ++ lit " " ++ EM_DASH :: lit " " ++ escapeHtml preview.

Fixpoint result_entries (idx : nat) (matches : list Result) : list Entry :=
  match matches with
  | [] => []
  | m :: r =>
      {| label := result_label idx m; target := item m |}
      :: result_entries (S idx) r
  end.

Definition renderResults (matches : list Result) : M unit :=
  match matches with
  | [] => modify (set_resultsPanel (PanelHtml (muted "No matches.")))
  | _ => modify (set_resultsPanel (PanelList (result_entries 0 matches)))
  end.

(** The substring fallback of [runSearch]. *)
Definition substring_fallback (lines : list Line.t) (q : jsstring)
  : list Result :=
  let ql := toLowerCase libs q in
  List.filter
    (fun r => includes (toLowerCase libs (Line.text (item r))) ql)
    (map (fun it => {| item := it; score := Some 1 |}) lines).

(** The hits [runSearch] goes on with: those of Fuse, or of the fallback
    when Fuse has none. *)
Definition search_results (lines : list Line.t) (threshold : option Q)
    (q : jsstring) : list Result :=
  let fuse := fuse_search libs lines
    {| keys := ["text"%string];
       threshold := threshold;
       includeScore := true;
       ignoreLocation := true;
       findAllMatches := true;
       minMatchCharLength := Nat.min 3 (List.length q);
       distance := 1000%N |} in
  let results := fuse q in
  match results with
  | [] => substring_fallback lines q
  | _ => results
  end.

(** [async function runSearch()] *)
Definition runSearch : M unit :=
  q ← gets (fun w => trim (searchBox w));
  doc ← gets gPdf;
  match doc with
  | None => alert (lit "Please load a PDF first.")
  | Some _ =>
      if (List.length q <? 1)%nat then alert (lit "Type a search phrase.")
      else
        setStatus (lit "Searching for: " ++ QUOT :: q ++ QUOT :: lit " ...");;
        threshold ← gets (fun w => parseFloat libs (thresholdInput w));
        lines ← gets corpus;
        let results := search_results lines threshold q in
        match results with
        | [] =>
            modify (set_resultsPanel (PanelHtml (muted "No matches found.")));;
            setStatus (lit "No matches found.")
        | _ =>
            let top := firstn 30 results in
            renderResults top;;
            setStatus (lit "Found " ++ dec (List.length results)
                       ++ lit " matches. Showing top "
                       ++ dec (List.length top) ++ lit ".")
        end
  end.
End Program.

(** ** Highlighting *)

(** The [item] given to [highlightMatch]; a missing property takes the
    default of the destructuring pattern. *)
Record Box := {
  box_x : option Q;
  box_y : option Q;
  box_width : option Q;
  box_height : option Q
}.

Definition box_of_line (l : Line.t) : Box :=
  {| box_x := Some (Line.x l); box_y := Some (Line.y l);
     box_width := Some (Line.width l); box_height := Some (Line.height l) |}.

Definition or_default (d : Q) (o : option Q) : Q :=
  match o with Some v => v | None => d end.

(** The element built under the [try] from the converted rectangle. *)
Definition highlight_element (rect : Rect4) : node :=
  let '(r0, r1, r2, r3) := rect in
  let left := Qmin r0 r2 in
  let top := Qmin r1 r3 in
  let w := Qabs (r0 - r2) in
  let h := Qabs (r1 - r3) in
  Element "div" [] ["highlight"%string]
    [("left"%string, left); ("top"%string, top);
     ("width"%string, w); ("height"%string, h)] [].

(** [function highlightMatch(wrapper, viewport, item)]; the wrapper it
    leaves is the value returned. *)
Definition highlightMatch (wrapper : node) (viewport : Viewport) (it : Box)
  : M node :=
  let wrapper := remove_highlights wrapper in
  let x := or_default 0 (box_x it) in
  let y := or_default 0 (box_y it) in
  let width := or_default 50 (box_width it) in
  let height := or_default 12 (box_height it) in
  try_catch
    (rect ← await (convertToViewportRectangle viewport
                     (x, y, x + width, y + height));
     let hl := highlight_element rect in
     modify (fun w => set_timers (timers w ++ [(6000%N, hl)]) w);;
     mret (appendChild wrapper hl))
    (fun err => console_log "Highlight failed" err;; mret wrapper).

(** ** Notions the statements use *)

(** The pieces of [s] between consecutive white-space units (some may be
    empty), and the non-empty ones: its words. *)
Fixpoint fields (s : jsstring) : list jsstring :=
  match s with
  | [] => [[]]
  | c :: r =>
      if is_space c then [] :: fields r
      else match fields r with
           | w :: ws => (c :: w) :: ws
           | [] => [[c]]
           end
  end.

Definition nonempty (s : jsstring) : bool :=
  match s with [] => false | _ => true end.

Definition words (s : jsstring) : list jsstring :=
  List.filter nonempty (fields s).

(** [parts.join(' ')] *)
Fixpoint join_sp (parts : list jsstring) : jsstring :=
  match parts with
  | [] => []
  | [p] => p
  | p :: rest => p ++ SP :: join_sp rest
  end.

(** Without white space; starting with a unit that is not white space. *)
Definition spacefree (w : jsstring) : bool :=
  forallb (fun c => negb (is_space c)) w.

Definition starts_nonspace (t : jsstring) : bool :=
  match t with
  | [] => false
  | c :: _ => negb (is_space c)
  end.

(** No two adjacent white-space units. *)
Fixpoint no_double_ws (s : jsstring) : bool :=
  match s with
  | c :: ((d :: _) as r) => negb (is_space c && is_space d) && no_double_ws r
  | _ => true
  end.

(** The fragments in reading order, cut into rows: a fragment stays in the
    row while its [y], subtracted as the loop does, is within 3 units of the
    [y] of the fragment that opened the row.  [row_from y0 items] is the
    rest of the open row and the rows after it; a row is its first fragment
    and the others. *)
Fixpoint row_from (y0 : Q) (items : list Item.t)
  : list Item.t * list (Item.t * list Item.t) :=
  match items with
  | [] => ([], [])
  | it :: r =>
      if Qle_bool (Qabs (js_sub y0 (tx5 it))) 3
      then let (g, gs) := row_from y0 r in (it :: g, gs)
      else let (g, gs) := row_from (tx5 it) r in ([], (it, g) :: gs)
  end.

Definition rows (items : list Item.t) : list (Item.t * list Item.t) :=
  match items with
  | [] => []
  | it :: r => let (g, gs) := row_from (tx5 it) r in (it, g) :: gs
  end.

Definition row_items (row : Item.t * list Item.t) : list Item.t :=
  fst row :: snd row.

(** The right edge of a fragment, the exact sum of its [x] and its width,
    and the largest one of a row. *)
Definition right_edge (it : Item.t) : Q := tx4 it + item_w it.

Definition fold_max (g : list Item.t) (m : Q) : Q :=
  fold_left (fun m it => Qmax m (right_edge it)) g m.


(** The accumulator after a whole row went through the loop. *)
Definition row_line (i : nat) (row : Item.t * list Item.t) : Line.t :=
  fold_left extend_line (snd row) (start_line i (fst row)).

(** How many units of [s] are one of the four escaped characters. *)
Definition is_special (c : jschar) : bool :=
  N.eqb c AMP || N.eqb c LT || N.eqb c GT || N.eqb c QUOT.

(** ** Lower case *)

(** The lower case of a unit of the ASCII range: the letters [A] to [Z]
    move by 32. *)
Definition upper_to_lower (c : jschar) : jschar :=
  if (N.leb 65 c && N.leb c 90)%N then (c + 32)%N else c.

Definition is_ascii (c : jschar) : bool := N.ltb c 128.

(** The capital sigma U+03A3 and its two small forms: U+03C3, and U+03C2
    at the end of a word. *)
Definition SIGMA : jschar := 931%N.
Definition SMALL_SIGMA : jschar := 963%N.
Definition FINAL_SIGMA : jschar := 962%N.

(** The Greek capitals U+0391 to U+03A9 (U+03A2 is not assigned) and the
    small letters U+03B1 to U+03C9. *)
Definition is_greek_capital (c : jschar) : bool :=
  (N.leb 913 c && N.leb c 929) || (N.leb 931 c && N.leb c 937).

Definition is_greek_small (c : jschar) : bool :=
  N.leb 945 c && N.leb c 969.

(** The cased letters and the case-ignorable units of Unicode, among the
    ASCII units and the Greek letters: the letters; and the apostrophe,
    the full stop, the colon, the circumflex and the grave accent. *)
Definition is_cased (c : jschar) : bool :=
  (N.leb 65 c && N.leb c 90) || (N.leb 97 c && N.leb c 122)
  || is_greek_capital c || is_greek_small c.

Definition is_case_ignorable (c : jschar) : bool :=
  existsb (N.eqb c) [39; 46; 58; 94; 96]%N.

(** The lower case of one unit, the capital sigma apart: the small letter
    stands 32 places after its capital. *)
Definition lower_unit (c : jschar) : jschar :=
  if (N.leb 65 c && N.leb c 90) || is_greek_capital c then (c + 32)%N
  else c.

(** A cased letter follows, after case-ignorable units at most. *)
Fixpoint cased_ahead (s : jsstring) : bool :=
  match s with
  | [] => false
  | c :: r =>
      if is_cased c then true
      else if is_case_ignorable c then cased_ahead r else false
  end.

(** [before] tells that a cased letter precedes, with case-ignorable units
    at most in between: a capital sigma there, with no cased letter ahead,
    ends a word (the condition Final_Sigma of Unicode's SpecialCasing). *)
Fixpoint lower_from (before : bool) (s : jsstring) : jsstring :=
  match s with
  | [] => []
  | c :: r =>
      (if N.eqb c SIGMA
       then (if before && negb (cased_ahead r) then FINAL_SIGMA
             else SMALL_SIGMA)
       else lower_unit c)
      :: lower_from
           (if is_cased c then true
            else if is_case_ignorable c then before else false) r
  end.

(** [String.prototype.toLowerCase] as the language defines it (the default
    case conversion of Unicode, which is context-sensitive at the capital
    sigma), written out for the strings made of ASCII units and of the
    Greek letters U+0391 to U+03C9; this is where it is used below. *)
Definition js_toLowerCase (s : jsstring) : jsstring := lower_from false s.


(** ** Sample inputs *)

(** A document of one page whose text content cannot be read. *)
Definition unreadable_page : Page :=
  {| getTextContent := Throw "text content unavailable"%string;
     getViewport := fun scale =>
       {| vp_width := 612 * scale; vp_height := 792 * scale;
          convertToViewportRectangle := fun r => Normal r |};
     render := fun _ => Normal tt |}.

Definition unreadable_pdf : Pdf :=
  {| numPages := 1; getPage := fun _ => Normal unreadable_page |}.

(** Stand-ins for the libraries: a decoder that accepts every buffer as
    [unreadable_pdf], an engine without hits, lower case on ASCII. *)
Definition sample_libs : Libs :=
  {| getDocument := fun _ => Normal unreadable_pdf;
     renderTextLayer := fun _ _ => Normal [];
     fuse_search := fun _ _ _ => [];
     toLowerCase := map upper_to_lower;
     toFixed := fun _ _ => lit "0.000";
     parseFloat := fun _ => None |}.

Definition sample_file (type : string) : File :=
  {| file_type := lit type; file_name := lit "report.pdf";
     arrayBuffer := Normal [37; 80; 68; 70]%N |}.

Definition empty_world : World :=
  {| gPdf := None; corpus := []; renderedPages := ∅; pdfContainer := [];
     statusEl := []; resultsPanel := PanelHtml []; pageCountDisplay := [];
     searchBox := []; thresholdInput := lit "0.4"; alerts := [];
     console := []; timers := [] |}.

Definition fragment (s : string) (x y w : Q) : Item.t :=
  Item.Make (Some (lit s)) (1, 0, 0, 12, x, y) (Some w) None.

(** Two fragments of one row (3 units apart) and one 4 units away. *)
Definition frag_hello : Item.t := fragment "Hello" 72 700 30.
Definition frag_world : Item.t := fragment " world " 110 703 40.
Definition frag_below : Item.t := fragment "Next  row" 72 704 50.

Definition hello_world : Line.t :=
  Line.Make (lit "Hello world") 72 700
            (js_sub (Qmax (js_add 72 30) (js_add 110 40)) 72)
            (Qmax (Qmax (Qabs 12) 10) (Qmax (Qabs 12) 10)) 1.

(** Two fragments whose [y] are the doubles 0.1 and 3.1: their exact
    distance is above 3, the distance the loop computes is 3. *)
Definition frag_low : Item.t := fragment "low" 72 (round64 (1 # 10)) 30.
Definition frag_high : Item.t := fragment "high" 110 (round64 (31 # 10)) 40.


Definition sample_line (s : string) (page : nat) : Line.t :=
  Line.Make (lit s) 72 700 120 12 page.


(** A rendered page that already shows a highlight. *)
Definition highlighted_page : node :=
  Element "div" (page_id 1) ["page-wrapper"%string] []
    [Element "canvas" [] [] [] [];
     Element "div" [] ["textLayer"%string] []
       [Element "span" [] [] [] []];
     Element "div" [] ["highlight"%string]
       [("left"%string, 10); ("top"%string, 20);
        ("width"%string, 30); ("height"%string, 12)] []].

(** A session with a document, 31 lines that contain the query and an
    engine that finds nothing. *)
Definition search_world : World :=
  {| gPdf := Some unreadable_pdf;
     corpus := repeat (sample_line "Alpha Beta" 1) 31;
     renderedPages := ∅; pdfContainer := [];
     statusEl := []; resultsPanel := PanelHtml []; pageCountDisplay := [];
     searchBox := lit " alpha "; thresholdInput := lit "0.4"; alerts := [];
     console := []; timers := [] |}.

(** A viewport whose conversion throws. *)
Definition broken_viewport : Viewport :=
  {| vp_width := 0; vp_height := 0;
     convertToViewportRectangle := fun _ => Throw "bad viewport"%string |}.

(** ** The click on a result *)

(** The element found by [getElementById] is the very object held by the
    container: what [highlightMatch] does to it shows there, at the place of
    the first element with that [id]. *)
Fixpoint replace_first (ident : jsstring) (new : node) (l : list node)
  : list node :=
  match l with
  | [] => []
  | n :: r =>
      if jsstring_eqb (node_id n) ident then new :: r
      else n :: replace_first ident new r
  end.

Section Handlers.
Context (libs : Libs).

(** The listener that [renderResults] puts on the button of [item]:
    render the page if need be, scroll to it, highlight the line.  A call
    of a method on [null] throws a [TypeError]; scrolling itself changes
    nothing that is modelled. *)
Definition clickResult (it : Line.t) : M unit :=
  ensurePageRendered libs (Line.pageNum it);;
  el ← gets (getElementById (page_id (Line.pageNum it)));
  match el with
  | None => throw "TypeError: null has no scrollIntoView"
  | Some _ =>
      doc ← gets gPdf;
      match doc with
      | None => throw "TypeError: gPdf is null"
      | Some pdf =>
          page ← await (getPage pdf (Line.pageNum it));
          let viewport := getViewport page (3 # 2) in
          el ← gets (getElementById (page_id (Line.pageNum it)));
          match el with
          | None => throw "TypeError: wrapper is null"
          | Some wrapper =>
              wrapper' ← highlightMatch wrapper viewport (box_of_line it);
              modify (fun w => set_pdfContainer
                (replace_first (page_id (Line.pageNum it)) wrapper'
                   (pdfContainer w)) w)
          end
      end
  end.
End Handlers.

(** ** More notions for the statements *)

(** What a render may not touch: everything but the pages, the set of
    rendered pages and the console. *)
Definition session_kept (w w' : World) : Prop :=
  gPdf w' = gPdf w /\ corpus w' = corpus w /\ statusEl w' = statusEl w
  /\ resultsPanel w' = resultsPanel w
  /\ pageCountDisplay w' = pageCountDisplay w
  /\ searchBox w' = searchBox w /\ thresholdInput w' = thresholdInput w
  /\ alerts w' = alerts w /\ timers w' = timers w.

(** The highlights among a list of siblings and below them. *)
Fixpoint count_highlights_in (l : list node) : nat :=
  match l with
  | [] => O
  | k :: r =>
      ((if has_class "highlight" k then 1 else 0)
       + count_highlights k + count_highlights_in r)%nat
  end.

(** The siblings left by the removal of the highlights. *)
Fixpoint remove_highlights_in (l : list node) : list node :=
  match l with
  | [] => []
  | k :: r =>
      if has_class "highlight" k then remove_highlights_in r
      else remove_highlights k :: remove_highlights_in r
  end.

(** Rows cut after a line anchored at [y0]: each row opens more than 3
    units away from the anchor before it and keeps its fragments within 3
    units of its own first fragment, the distances being those the loop
    computes. *)
Fixpoint anchored (y0 : Q) (gs : list (Item.t * list Item.t)) : Prop :=
  match gs with
  | [] => True
  | r :: rest =>
      3 < Qabs (js_sub y0 (tx5 (fst r)))
      /\ (forall it, In it (snd r) ->
          Qabs (js_sub (tx5 (fst r)) (tx5 it)) <= 3)
      /\ anchored (tx5 (fst r)) rest
  end.

(** The multiples [m * 2^p] with [|m| <= B]: for [B] below [2^53] and [p]
    not below [-1074] they are doubles. *)
Definition on_grid (p B : Z) (q : Q) : Prop :=
  exists m : Z, q == inject_Z m * pow2 p /\ (Z.abs m <= B)%Z.

(** The order of the corpus: by page. *)
Definition page_le (a b : Line.t) : Prop :=
  (Line.pageNum a <= Line.pageNum b)%nat.

(** The larger height of a row, as the loop folds it. *)
Definition fold_max_h (g : list Item.t) (m : Q) : Q :=
  fold_left (fun m it => Qmax m (item_h it)) g m.

(** ** More sample inputs *)

Definition plain_viewport (scale : Q) : Viewport :=
  {| vp_width := 612 * scale; vp_height := 792 * scale;
     convertToViewportRectangle := fun r => Normal r |}.

(** A page with the three sample fragments, and one with a single
    fragment. *)
Definition first_page : Page :=
  {| getTextContent := Normal [frag_hello; frag_world; frag_below];
     getViewport := plain_viewport;
     render := fun _ => Normal tt |}.

Definition second_page : Page :=
  {| getTextContent := Normal [fragment "Alpha Gamma" 72 650 80];
     getViewport := plain_viewport;
     render := fun _ => Normal tt |}.

Definition two_page_pdf : Pdf :=
  {| numPages := 2;
     getPage := fun i =>
       match i with
       | 1%nat => Normal first_page
       | 2%nat => Normal second_page
       | _ => Throw "Invalid page request"%string
       end |}.

(** A document whose second page cannot be fetched. *)
Definition torn_pdf : Pdf :=
  {| numPages := 3;
     getPage := fun i =>
       match i with
       | 1%nat => Normal first_page
       | _ => Throw "Invalid page request"%string
       end |}.

(** A page whose canvas cannot be painted. *)
Definition unpaintable_page : Page :=
  {| getTextContent := Normal [frag_hello];
     getViewport := plain_viewport;
     render := fun _ => Throw "canvas failure"%string |}.

Definition unpaintable_pdf : Pdf :=
  {| numPages := 1; getPage := fun _ => Normal unpaintable_page |}.

(** Libraries whose decoder gives [pdf], or rejects every buffer. *)
Definition libs_for (pdf : Pdf) : Libs :=
  {| getDocument := fun _ => Normal pdf;
     renderTextLayer := fun _ _ => Normal [];
     fuse_search := fun _ _ _ => [];
     toLowerCase := map upper_to_lower;
     toFixed := fun _ _ => lit "0.000";
     parseFloat := fun _ => None |}.

(** The built-in lower case, and an engine without hits. *)
Definition unicode_libs : Libs :=
  {| getDocument := fun _ => Normal unreadable_pdf;
     renderTextLayer := fun _ _ => Normal [];
     fuse_search := fun _ _ _ => [];
     toLowerCase := js_toLowerCase;
     toFixed := fun _ _ => lit "0.000";
     parseFloat := fun _ => None |}.


Definition rejecting_libs : Libs :=
  {| getDocument := fun _ => Throw "Invalid PDF structure"%string;
     renderTextLayer := fun _ _ => Normal [];
     fuse_search := fun _ _ _ => [];
     toLowerCase := map upper_to_lower;
     toFixed := fun _ _ => lit "0.000";
     parseFloat := fun _ => None |}.

(** A file whose bytes cannot be read. *)
Definition unreadable_file : File :=
  {| file_type := lit "application/pdf"; file_name := lit "gone.pdf";
     arrayBuffer := Throw "NotReadableError"%string |}.

(** A document whose viewports cannot convert a rectangle. *)
Definition broken_geometry_page : Page :=
  {| getTextContent := Normal [frag_hello; frag_world];
     getViewport := fun _ => broken_viewport;
     render := fun _ => Normal tt |}.

Definition broken_geometry_pdf : Pdf :=
  {| numPages := 1; getPage := fun _ => Normal broken_geometry_page |}.

(** A session that shows page 1, with an earlier highlight on it. *)
Definition shown_world (pdf : Pdf) : World :=
  {| gPdf := Some pdf; corpus := [hello_world];
     renderedPages := {[1%nat]}; pdfContainer := [highlighted_page];
     statusEl := lit "Ready"; resultsPanel := PanelHtml [];
     pageCountDisplay := []; searchBox := lit "hello";
     thresholdInput := lit "0.4"; alerts := []; console := [];
     timers := [] |}.

(** A rendered page 2 without highlight, and a session that shows page 2
    and then page 1, in the order they were asked for. *)
Definition second_page_shown : node :=
  Element "div" (page_id 2) ["page-wrapper"%string] []
    [Element "canvas" [] [] [] [];
     Element "div" [] ["textLayer"%string] [] []].

Definition two_shown_world (pdf : Pdf) : World :=
  {| gPdf := Some pdf; corpus := [hello_world];
     renderedPages := {[1%nat; 2%nat]};
     pdfContainer := [second_page_shown; highlighted_page];
     statusEl := lit "Ready"; resultsPanel := PanelHtml [];
     pageCountDisplay := []; searchBox := lit "hello";
     thresholdInput := lit "0.4"; alerts := []; console := [];
     timers := [] |}.

Definition world_with (pdf : option Pdf) (query : string) : World :=
  {| gPdf := pdf; corpus := [sample_line "Alpha Beta" 1];
     renderedPages := ∅; pdfContainer := [];
     statusEl := lit "Ready"; resultsPanel := PanelHtml [];
     pageCountDisplay := []; searchBox := lit query;
     thresholdInput := lit "0.4"; alerts := []; console := [];
     timers := [] |}.

(* ================================================================== *)
(** * Part II: properties                                              *)
(* ================================================================== *)

(** ** Rounding to the nearest double *)

Unset Implicit Arguments.

Lemma pow2_pos (e : Z) : 0 < pow2 e.
Proof. apply Qpower_0_lt. reflexivity. Qed.

Lemma pow2_add (a b : Z) : pow2 (a + b) == pow2 a * pow2 b.
Proof. apply Qpower_plus. discriminate. Qed.

Lemma pow2_le (a b : Z) : (a <= b)%Z -> pow2 a <= pow2 b.
Proof. intros H. apply Qpower_le_compat_l; [exact H | discriminate]. Qed.

Lemma pow2_lt_inv (a b : Z) : pow2 a < pow2 b -> (a < b)%Z.
Proof. intros H. apply (Qpower_lt_compat_l_inv 2); [exact H | reflexivity]. Qed.

Lemma pow2_Z (n : Z) : (0 <= n)%Z -> pow2 n == inject_Z (2 ^ n).
Proof. intros H. unfold pow2. now rewrite Zpower_Qpower. Qed.

Lemma pow2_sub (a b : Z) : pow2 (a - b) * pow2 b == pow2 a.
Proof. rewrite <- pow2_add. now replace (a - b + b)%Z with a by ring. Qed.

Lemma ilog2_spec (q : Q) :
  0 < q -> pow2 (ilog2 q) <= q /\ q < pow2 (ilog2 q + 1).
Proof.
  intros Hq. unfold ilog2.
  set (ln := Z.log2 (Qnum q)). set (ld := Z.log2 (Zpos (Qden q))).
  assert (Hn : (0 < Qnum q)%Z).
  { destruct q as [n d]. unfold Qlt in Hq. simpl in *. lia. }
  destruct (Z.log2_spec (Qnum q) Hn) as [Hn1 Hn2]. fold ln in Hn1, Hn2.
  destruct (Z.log2_spec (Zpos (Qden q)) eq_refl) as [Hd1 Hd2].
  fold ld in Hd1, Hd2.
  assert (Hln : (0 <= ln)%Z) by apply Z.log2_nonneg.
  assert (Hld : (0 <= ld)%Z) by apply Z.log2_nonneg.
  assert (Hqd : q * inject_Z (Zpos (Qden q)) == inject_Z (Qnum q)).
  { destruct q as [n d]. unfold Qeq. simpl. rewrite Pos.mul_1_r. ring. }
  assert (Hup : q < pow2 (ln - ld + 1)).
  { apply Qnot_le_lt. intros Hle.
    pose proof (pow2_sub (ln + 1) ld) as E.
    replace (ln + 1 - ld)%Z with (ln - ld + 1)%Z in E by ring.
    rewrite (pow2_Z (ln + 1)), (pow2_Z ld) in E by lia.
    assert (H1 : inject_Z (2 ^ ld) <= inject_Z (Zpos (Qden q)))
      by (rewrite <- Zle_Qle; exact Hd1).
    assert (H2 : inject_Z (Qnum q) < inject_Z (2 ^ (ln + 1)))
      by (rewrite <- Zlt_Qlt; replace (ln + 1)%Z with (Z.succ ln) by ring;
          exact Hn2).
    assert (H0 : 0 < inject_Z (2 ^ ld))
      by (rewrite <- (pow2_Z ld) by lia; apply pow2_pos).
    nra. }
  assert (Hlow : pow2 (ln - ld - 1) <= q).
  { apply Qnot_lt_le. intros Hlt.
    pose proof (pow2_sub ln (ld + 1)) as E.
    replace (ln - (ld + 1))%Z with (ln - ld - 1)%Z in E by ring.
    rewrite (pow2_Z ln), (pow2_Z (ld + 1)) in E by lia.
    assert (H1 : inject_Z (Zpos (Qden q)) < inject_Z (2 ^ (ld + 1)))
      by (rewrite <- Zlt_Qlt; replace (ld + 1)%Z with (Z.succ ld) by ring;
          exact Hd2).
    assert (H2 : inject_Z (2 ^ ln) <= inject_Z (Qnum q))
      by (rewrite <- Zle_Qle; exact Hn1).
    assert (H0 : 0 < inject_Z (Zpos (Qden q)))
      by (rewrite <- (Zlt_Qlt 0); reflexivity).
    assert (H3 : q * inject_Z (Zpos (Qden q)) <= q * inject_Z (2 ^ (ld + 1)))
      by (apply Qmult_le_l; lra).
    assert (H4 : q * inject_Z (2 ^ (ld + 1))
                 < pow2 (ln - ld - 1) * inject_Z (2 ^ (ld + 1)))
      by (apply Qmult_lt_r; lra).
    lra. }
  destruct (Qle_bool (pow2 (ln - ld)) q) eqn:E.
  - apply Qle_bool_iff in E. split; assumption.
  - split.
    + exact Hlow.
    + replace (ln - ld - 1 + 1)%Z with (ln - ld)%Z by ring.
      apply Qnot_le_lt. intros H. apply Qle_bool_iff in H.
      rewrite H in E. discriminate E.
Qed.

Lemma ilog2_unique (q : Q) (e : Z) :
  0 < q -> pow2 e <= q -> q < pow2 (e + 1) -> ilog2 q = e.
Proof.
  intros Hq H1 H2. destruct (ilog2_spec q Hq) as [S1 S2].
  assert (ilog2 q < e + 1)%Z
    by (apply pow2_lt_inv; eapply Qle_lt_trans; eassumption).
  assert (e < ilog2 q + 1)%Z
    by (apply pow2_lt_inv; eapply Qle_lt_trans; eassumption).
  lia.
Qed.

Lemma ilog2_mono (a b : Q) : 0 < a -> a <= b -> (ilog2 a <= ilog2 b)%Z.
Proof.
  intros Ha Hab. assert (Hb : 0 < b) by lra.
  destruct (ilog2_spec a Ha) as [A1 _]. destruct (ilog2_spec b Hb) as [_ B2].
  assert (ilog2 a < ilog2 b + 1)%Z by (apply pow2_lt_inv; lra).
  lia.
Qed.

Lemma round_half_even_cases (q : Q) :
  (round_half_even q = Qfloor q /\ q - inject_Z (Qfloor q) <= 1 # 2
   /\ (q - inject_Z (Qfloor q) == 1 # 2 -> Z.even (Qfloor q) = true))
  \/ (round_half_even q = (Qfloor q + 1)%Z /\ 1 # 2 <= q - inject_Z (Qfloor q)
      /\ (q - inject_Z (Qfloor q) == 1 # 2 -> Z.even (Qfloor q) = false)).
Proof.
  unfold round_half_even.
  destruct (Qcompare_spec (q - inject_Z (Qfloor q)) (1 # 2)) as [E | E | E].
  - destruct (Z.even (Qfloor q)) eqn:Ev.
    + left. split; [reflexivity|]. split; [lra | auto].
    + right. split; [reflexivity|]. split; [lra | auto].
  - left. split; [reflexivity|]. split; [lra | intros H; lra].
  - right. split; [reflexivity|]. split; [lra | intros H; lra].
Qed.

Lemma round_half_even_mono (a b : Q) :
  a <= b -> (round_half_even a <= round_half_even b)%Z.
Proof.
  intros Hab. pose proof (Qfloor_resp_le a b Hab) as Hf.
  pose proof (Qfloor_le a) as La. pose proof (Qlt_floor a) as Ua.
  pose proof (Qfloor_le b) as Lb. pose proof (Qlt_floor b) as Ub.
  destruct (round_half_even_cases a) as [(-> & A1 & A2) | (-> & A1 & A2)];
    destruct (round_half_even_cases b) as [(-> & B1 & B2) | (-> & B1 & B2)];
    try lia.
  destruct (Z.eq_dec (Qfloor a) (Qfloor b)) as [E | E]; [|lia].
  exfalso. rewrite E in *.
  assert (Ha : a - inject_Z (Qfloor b) == 1 # 2) by lra.
  assert (Hb : b - inject_Z (Qfloor b) == 1 # 2) by lra.
  rewrite (A2 Ha) in B2. specialize (B2 Hb). discriminate B2.
Qed.

Lemma round_half_even_Z (n : Z) : round_half_even (inject_Z n) = n.
Proof.
  unfold round_half_even. rewrite Qfloor_Z.
  destruct (Qcompare_spec (inject_Z n - inject_Z n) (1 # 2)) as [E | E | E];
    [lra | reflexivity | lra].
Qed.


Lemma Qdiv_le (a b c : Q) : 0 < c -> a <= b -> a / c <= b / c.
Proof.
  intros Hc Hab. unfold Qdiv. apply Qmult_le_r; [|exact Hab].
  now apply Qinv_lt_0_compat.
Qed.

Lemma pow2_div (a b : Z) : pow2 a / pow2 b == pow2 (a - b).
Proof.
  rewrite <- (pow2_sub a b). field.
  intros H. pose proof (pow2_pos b). lra.
Qed.

Lemma scaled_back (m : Z) (q : Q) (p : Z) :
  inject_Z m <= q / pow2 p -> inject_Z m * pow2 p <= q.
Proof.
  intros H. pose proof (pow2_pos p) as Hp.
  assert (E : q == q / pow2 p * pow2 p) by (field; intros H0; lra).
  rewrite E. apply Qmult_le_r; assumption.
Qed.

Lemma round_pos_nonneg (q : Q) : 0 < q -> 0 <= round_pos q.
Proof.
  intros Hq. unfold round_pos. pose proof (pow2_pos (ulp_exp q)) as Hp.
  assert (H : (0 <= round_half_even (q / pow2 (ulp_exp q)))%Z).
  { rewrite <- (round_half_even_Z 0). apply round_half_even_mono.
    apply Qle_shift_div_l; [exact Hp | change (inject_Z 0) with 0; lra]. }
  apply Qmult_le_0_compat; [|lra]. now rewrite <- (Zle_Qle 0).
Qed.

Lemma round_pos_lower (q : Q) :
  0 < q -> (ulp_exp q <= ilog2 q)%Z -> pow2 (ilog2 q) <= round_pos q.
Proof.
  intros Hq Hp. destruct (ilog2_spec q Hq) as [S1 _]. unfold round_pos.
  set (p := ulp_exp q) in *. set (e := ilog2 q) in *.
  assert (H : (2 ^ (e - p) <= round_half_even (q / pow2 p))%Z).
  { rewrite <- (round_half_even_Z (2 ^ (e - p))).
    apply round_half_even_mono.
    rewrite <- pow2_Z by lia. rewrite <- pow2_div.
    apply Qdiv_le; [apply pow2_pos | exact S1]. }
  rewrite <- (pow2_sub e p), pow2_Z by lia.
  apply Qmult_le_r; [apply pow2_pos|]. now rewrite <- Zle_Qle.
Qed.

Lemma round_pos_upper (q : Q) :
  0 < q -> round_pos q <= pow2 (Z.max (ilog2 q + 1) (ulp_exp q)).
Proof.
  intros Hq. destruct (ilog2_spec q Hq) as [_ S2]. unfold round_pos.
  set (p := ulp_exp q) in *. set (e := ilog2 q) in *.
  set (m := (Z.max (e + 1) p - p)%Z).
  assert (H : (round_half_even (q / pow2 p) <= 2 ^ m)%Z).
  { rewrite <- (round_half_even_Z (2 ^ m)).
    apply round_half_even_mono.
    rewrite <- pow2_Z by lia.
    apply Qle_trans with (pow2 (e + 1 - p)).
    - rewrite <- pow2_div. apply Qdiv_le; [apply pow2_pos | lra].
    - apply pow2_le. lia. }
  rewrite <- (pow2_sub (Z.max (e + 1) p) p). fold m. rewrite (pow2_Z m) by lia.
  apply Qmult_le_r; [apply pow2_pos|]. now rewrite <- Zle_Qle.
Qed.

Lemma round_pos_mono (a b : Q) :
  0 < a -> a <= b -> round_pos a <= round_pos b.
Proof.
  intros Ha Hab. assert (Hb : 0 < b) by lra.
  pose proof (ilog2_mono a b Ha Hab) as He.
  destruct (Z.eq_dec (ulp_exp a) (ulp_exp b)) as [E | E].
  - unfold round_pos. rewrite E.
    apply Qmult_le_r; [apply pow2_pos|]. rewrite <- Zle_Qle.
    apply round_half_even_mono, Qdiv_le; [apply pow2_pos | exact Hab].
  - unfold ulp_exp in E.
    apply Qle_trans with (pow2 (ilog2 b)).
    + eapply Qle_trans; [apply (round_pos_upper a Ha)|].
      apply pow2_le. unfold ulp_exp. lia.
    + apply round_pos_lower; [exact Hb|]. unfold ulp_exp. lia.
Qed.

Lemma round64_pos (q : Q) : 0 < q -> round64 q = round_pos q.
Proof.
  intros H. unfold round64.
  destruct (Qcompare_spec q 0); [lra | lra | reflexivity].
Qed.

Lemma round64_neg (q : Q) : q < 0 -> round64 q = - round_pos (- q).
Proof.
  intros H. unfold round64.
  destruct (Qcompare_spec q 0); [lra | reflexivity | lra].
Qed.

Lemma round64_zero (q : Q) : q == 0 -> round64 q = 0.
Proof.
  intros H. unfold round64.
  destruct (Qcompare_spec q 0); [reflexivity | lra | lra].
Qed.

Lemma round64_sign (q : Q) :
  (0 < q -> 0 <= round64 q) /\ (q < 0 -> round64 q <= 0).
Proof.
  split; intros H.
  - rewrite round64_pos by exact H. now apply round_pos_nonneg.
  - rewrite round64_neg by exact H.
    assert (0 <= round_pos (- q)) by (apply round_pos_nonneg; lra). lra.
Qed.

Lemma round64_mono (a b : Q) : a <= b -> round64 a <= round64 b.
Proof.
  intros Hab.
  destruct (Q_dec a 0) as [[Ha | Ha] | Ha];
    destruct (Q_dec b 0) as [[Hb | Hb] | Hb]; try lra.
  - rewrite (round64_neg a Ha), (round64_neg b Hb).
    assert (round_pos (- b) <= round_pos (- a))
      by (apply round_pos_mono; lra).
    lra.
  - pose proof (proj2 (round64_sign a) Ha).
    pose proof (proj1 (round64_sign b) Hb). lra.
  - pose proof (proj2 (round64_sign a) Ha).
    rewrite (round64_zero b Hb). exact H.
  - rewrite (round64_pos a Ha), (round64_pos b Hb).
    now apply round_pos_mono.
  - rewrite (round64_zero a Ha). exact (proj1 (round64_sign b) Hb).
  - rewrite (round64_zero a Ha), (round64_zero b Hb). apply Qle_refl.
Qed.










Lemma round64_3 :
  round64 3 == 3 /\ round64 (Qopp 3) == Qopp 3 /\ round64 4 == 4
  /\ round64 (Qopp 4) == Qopp 4.
Proof. repeat split; vm_compute; reflexivity. Qed.

Lemma round64_within_3 (d : Q) : Qabs d <= 3 -> Qabs (round64 d) <= 3.
Proof.
  intros H. apply Qabs_Qle_condition in H. destruct H as [H1 H2].
  apply Qabs_Qle_condition.
  pose proof (round64_mono _ _ H1). pose proof (round64_mono _ _ H2).
  destruct round64_3 as (E1 & E2 & _). lra.
Qed.

Lemma round64_beyond_4 (d : Q) : 4 <= Qabs d -> 3 < Qabs (round64 d).
Proof.
  intros H. destruct round64_3 as (_ & _ & E1 & E2).
  destruct (Qlt_le_dec d 0) as [Hd | Hd].
  - rewrite Qabs_neg in H by lra.
    assert (Hm : d <= Qopp 4) by lra. apply round64_mono in Hm.
    rewrite Qabs_neg by lra. lra.
  - rewrite Qabs_pos in H by lra. apply round64_mono in H.
    rewrite Qabs_pos by lra. lra.
Qed.

Lemma round_half_even_above (n : Z) (x : Q) :
  inject_Z n + (1 # 2) < x -> (n + 1 <= round_half_even x)%Z.
Proof.
  intros H. pose proof (Qfloor_le x) as L. pose proof (Qlt_floor x) as U.
  assert (Hn : (n <= Qfloor x)%Z).
  { apply Z.lt_succ_r. rewrite Zlt_Qlt. unfold Z.succ.
    rewrite inject_Z_plus in *. change (inject_Z 1) with 1 in *. lra. }
  destruct (round_half_even_cases x) as [(-> & A1 & _) | (-> & _ & _)];
    [|lia].
  destruct (Z.eq_dec n (Qfloor x)) as [E | E]; [|lia].
  exfalso. rewrite <- E in A1. lra.
Qed.

Lemma round_pos_above_3 (d : Q) : 3 + pow2 (-52) < d -> 3 < round_pos d.
Proof.
  intros H.
  assert (P52 : pow2 (-52) == 1 # 4503599627370496) by (vm_compute; reflexivity).
  assert (Hd : 0 < d) by (rewrite P52 in H; lra).
  destruct (Qlt_le_dec d 4) as [H4 | H4].
  - assert (El : ilog2 d = 1%Z).
    { apply ilog2_unique; [exact Hd | |].
      - change (pow2 1) with 2. rewrite P52 in H. lra.
      - change (pow2 (1 + 1)) with 4. exact H4. }
    unfold round_pos, ulp_exp. rewrite El.
    change (Z.max (1 - 52) (-1074)) with (-51)%Z.
    assert (P51 : pow2 (-51) == 1 # 2251799813685248)
      by (vm_compute; reflexivity).
    assert (Hx : inject_Z 6755399441055744 + (1 # 2) < d / pow2 (-51)).
    { apply Qlt_shift_div_l; [apply pow2_pos|].
      rewrite P51. rewrite P52 in H.
      assert (E : (inject_Z 6755399441055744 + (1 # 2))
                  * (1 # 2251799813685248)
                  == 3 + (1 # 4503599627370496))
        by (vm_compute; reflexivity).
      rewrite E. exact H. }
    apply round_half_even_above in Hx.
    rewrite Zle_Qle in Hx.
    assert (E3 : 3 < inject_Z (6755399441055744 + 1) * pow2 (-51))
      by (rewrite P51; vm_compute; reflexivity).
    eapply Qlt_le_trans; [exact E3|].
    apply Qmult_le_r; [apply pow2_pos | exact Hx].
  - assert (E4 : round_pos 4 == 4) by (vm_compute; reflexivity).
    pose proof (round_pos_mono 4 d ltac:(lra) H4). lra.
Qed.

(** The test of the loop, on the exact difference: the half-way point
    [3 + 2^-52] rounds to 3, whose last bit is even. *)
Lemma round64_test_3 (d : Q) :
  Qabs (round64 d) <= 3 <-> Qabs d <= 3 + pow2 (-52).
Proof.
  assert (P52 : pow2 (-52) == 1 # 4503599627370496) by (vm_compute; reflexivity).
  split.
  - intros H. apply Qnot_lt_le. intros Hd.
    apply Qabs_Qle_condition in H. destruct H as [H1 H2].
    destruct (Qlt_le_dec d 0) as [Hn | Hn].
    + rewrite Qabs_neg in Hd by lra.
      assert (Hd' : 3 + pow2 (-52) < - d) by exact Hd.
      pose proof (round_pos_above_3 (- d) Hd') as R.
      rewrite (round64_neg d Hn) in H1. lra.
    + rewrite Qabs_pos in Hd by lra.
      pose proof (round_pos_above_3 d Hd) as R.
      assert (Hp : 0 < d) by (rewrite P52 in Hd; lra).
      rewrite (round64_pos d Hp) in H2. lra.
  - intros H. apply Qabs_Qle_condition in H. destruct H as [H1 H2].
    apply Qabs_Qle_condition.
    apply round64_mono in H1. apply round64_mono in H2.
    assert (E1 : round64 (3 + pow2 (-52)) == 3) by (vm_compute; reflexivity).
    assert (E2 : round64 (- (3 + pow2 (-52))) == Qopp 3)
      by (vm_compute; reflexivity).
    lra.
Qed.

Set Implicit Arguments.

(** ** White space, words and normalisation *)

Lemma is_space_SP : is_space SP = true.
Proof. reflexivity. Qed.

Lemma trimStart_snoc (a : jsstring) (c : jschar) :
  trimStart (a ++ [c]) =
  match trimStart a with
  | [] => trimStart [c]
  | u => u ++ [c]
  end.
Proof.
  induction a as [|d a IH]; simpl; [reflexivity|].
  destruct (is_space d); [exact IH | reflexivity].
Qed.

Lemma trimEnd_cons (c : jschar) (t : jsstring) :
  trimEnd (c :: t) =
  match trimEnd t with
  | [] => if is_space c then [] else [c]
  | u => c :: u
  end.
Proof.
  unfold trimEnd. simpl rev. rewrite trimStart_snoc.
  destruct (trimStart (rev t)) as [|d u]; simpl.
  - destruct (is_space c); reflexivity.
  - rewrite rev_app_distr. simpl.
    destruct (rev u ++ [d]) as [|e v] eqn:E; [|reflexivity].
    destruct (rev u); discriminate E.
Qed.

Lemma trimEnd_cons_nonspace (c : jschar) (t : jsstring) :
  is_space c = false -> trimEnd (c :: t) = c :: trimEnd t.
Proof.
  intros Hc. rewrite trimEnd_cons, Hc. destruct (trimEnd t); reflexivity.
Qed.

Lemma trimStart_runs_true (s : jsstring) :
  trimStart (replace_ws_runs true s) = replace_ws_runs true s.
Proof.
  induction s as [|c r IH]; simpl; [reflexivity|].
  destruct (is_space c) eqn:E; [exact IH|]. simpl. now rewrite E.
Qed.

Lemma trimStart_runs_false (s : jsstring) :
  trimStart (replace_ws_runs false s) = replace_ws_runs true s.
Proof.
  destruct s as [|c r]; simpl; [reflexivity|].
  destruct (is_space c) eqn:E; simpl.
  - apply trimStart_runs_true.
  - now rewrite E.
Qed.

Lemma fields_cons (s : jsstring) : exists w ws, fields s = w :: ws.
Proof.
  destruct s as [|c r]; simpl; eauto.
  destruct (is_space c); eauto. destruct (fields r); eauto.
Qed.

Lemma words_nonempty (s : jsstring) :
  Forall (fun w => nonempty w = true) (words s).
Proof.
  apply List.Forall_forall. intros w Hw. apply filter_In in Hw. tauto.
Qed.

Lemma join_sp_cons_cons (c : jschar) (w : jsstring) (rest : list jsstring) :
  join_sp ((c :: w) :: rest) = c :: join_sp (w :: rest).
Proof. destruct rest; reflexivity. Qed.

Lemma join_sp_nil (parts : list jsstring) :
  Forall (fun w => nonempty w = true) parts ->
  join_sp parts = [] -> parts = [].
Proof.
  intros Hall Hj. destruct parts as [|p rest]; [reflexivity|].
  inversion Hall as [|? ? Hp _]; subst.
  destruct p as [|c p]; [discriminate Hp|].
  rewrite join_sp_cons_cons in Hj. discriminate Hj.
Qed.

(** The two modes of the replacement, trimmed at the end, in terms of the
    fields of the string. *)
Lemma trimEnd_runs (s : jsstring) :
  trimEnd (replace_ws_runs true s) = join_sp (words s) /\
  trimEnd (replace_ws_runs false s) =
    join_sp (hd [] (fields s) :: List.filter nonempty (tl (fields s))).
Proof.
  induction s as [|c r [IHt IHf]]; [split; reflexivity|].
  unfold words in *. simpl. destruct (is_space c) eqn:E.
  - split; [exact IHt|]. simpl.
    rewrite trimEnd_cons, is_space_SP, IHt.
    pose proof (words_nonempty r) as Hne. unfold words in Hne.
    destruct (List.filter nonempty (fields r)) as [|p rest] eqn:F;
      [reflexivity|].
    destruct (join_sp (p :: rest)) eqn:J; [|reflexivity].
    apply join_sp_nil in J; [discriminate J | exact Hne].
  - destruct (fields_cons r) as (w & ws & Hf). rewrite Hf in *. simpl in *.
    rewrite trimEnd_cons_nonspace by exact E.
    rewrite IHf. destruct (List.filter nonempty ws); split; reflexivity.
Qed.

(** Normalising a string joins its words with single spaces. *)
Lemma normalize_words (s : jsstring) : normalize s = join_sp (words s).
Proof.
  unfold normalize, trim. rewrite trimStart_runs_false.
  apply trimEnd_runs.
Qed.

Lemma fields_app_space (a b : jsstring) (c : jschar) :
  is_space c = true -> fields (a ++ c :: b) = fields a ++ fields b.
Proof.
  intros Hc. induction a as [|d a IH]; simpl.
  - now rewrite Hc.
  - rewrite IH. destruct (is_space d); [reflexivity|].
    destruct (fields_cons a) as (w & ws & Hf). now rewrite Hf.
Qed.

Lemma words_app_space (a b : jsstring) (c : jschar) :
  is_space c = true -> words (a ++ c :: b) = words a ++ words b.
Proof.
  intros Hc. unfold words. rewrite fields_app_space by exact Hc.
  apply List.filter_app.
Qed.

Lemma words_join_sp (parts : list jsstring) :
  words (join_sp parts) = concat (map words parts).
Proof.
  induction parts as [|p rest IH]; [reflexivity|].
  destruct rest as [|p' rest].
  - simpl. now rewrite app_nil_r.
  - change (join_sp (p :: p' :: rest)) with (p ++ SP :: join_sp (p' :: rest)).
    rewrite words_app_space by reflexivity. now rewrite IH.
Qed.

Lemma fields_spacefree (s : jsstring) :
  Forall (fun w => spacefree w = true) (fields s).
Proof.
  induction s as [|c r IH]; simpl.
  - repeat constructor.
  - destruct (is_space c) eqn:E.
    + constructor; [reflexivity | exact IH].
    + destruct (fields r) as [|w ws].
      * repeat constructor. simpl. now rewrite E.
      * inversion IH; subst. constructor; [|assumption].
        simpl. rewrite E. simpl. assumption.
Qed.

Lemma words_spacefree (s : jsstring) :
  Forall (fun w => spacefree w = true) (words s).
Proof.
  apply List.Forall_forall. intros w Hw. apply filter_In in Hw.
  destruct Hw as [Hw _].
  exact (proj1 (List.Forall_forall _ _) (fields_spacefree s) w Hw).
Qed.

Lemma fields_of_spacefree (w : jsstring) :
  spacefree w = true -> fields w = [w].
Proof.
  induction w as [|c w IH]; [reflexivity|]. simpl.
  intros H. apply andb_prop in H. destruct H as [Hc Hw].
  apply negb_true_iff in Hc. rewrite Hc, (IH Hw). reflexivity.
Qed.

Lemma words_of_word (w : jsstring) :
  spacefree w = true -> nonempty w = true -> words w = [w].
Proof.
  intros Hs Hn. unfold words. rewrite (fields_of_spacefree _ Hs).
  simpl. now rewrite Hn.
Qed.

Lemma words_normalize (s : jsstring) : words (normalize s) = words s.
Proof.
  rewrite normalize_words, words_join_sp.
  pose proof (words_spacefree s) as Hs.
  pose proof (words_nonempty s) as Hn.
  induction (words s) as [|w ws IH]; [reflexivity|].
  inversion Hs; inversion Hn; subst. simpl.
  rewrite words_of_word by assumption. simpl. f_equal. now apply IH.
Qed.

Lemma normalize_nil_words (s : jsstring) : normalize s = [] -> words s = [].
Proof.
  rewrite normalize_words. apply join_sp_nil, words_nonempty.
Qed.

Lemma no_double_ws_app (w t : jsstring) :
  spacefree w = true -> starts_nonspace t = true -> no_double_ws t = true ->
  no_double_ws (w ++ SP :: t) = true.
Proof.
  intros Hw Ht Hnd. induction w as [|c w IH].
  - destruct t as [|d t]; [discriminate Ht|]. simpl in Ht.
    apply negb_true_iff in Ht.
    change (negb (is_space SP && is_space d) && no_double_ws (d :: t) = true).
    now rewrite Ht, andb_false_r, Hnd.
  - simpl in Hw. apply andb_prop in Hw. destruct Hw as [Hc Hw].
    apply negb_true_iff in Hc. specialize (IH Hw).
    simpl. destruct (w ++ SP :: t) as [|e v] eqn:E.
    + destruct w; discriminate E.
    + now rewrite Hc, IH.
Qed.

Lemma no_double_ws_spacefree (w : jsstring) :
  spacefree w = true -> no_double_ws w = true.
Proof.
  induction w as [|c w IH]; [reflexivity|]. simpl. intros H.
  apply andb_prop in H. destruct H as [Hc Hw]. apply negb_true_iff in Hc.
  destruct w as [|d w]; [reflexivity|]. rewrite Hc. simpl.
  exact (IH Hw).
Qed.

Lemma join_sp_shape (parts : list jsstring) :
  Forall (fun w => spacefree w = true) parts ->
  Forall (fun w => nonempty w = true) parts ->
  no_double_ws (join_sp parts) = true /\
  (parts <> [] -> starts_nonspace (join_sp parts) = true).
Proof.
  induction parts as [|p rest IH]; intros Hs Hn; [split; [reflexivity|easy]|].
  inversion Hs as [|? ? Hp Hs']; inversion Hn as [|? ? Hq Hn']; subst.
  destruct (IH Hs' Hn') as [IH1 IH2].
  assert (Hstart : starts_nonspace p = true).
  { destruct p as [|c p]; [discriminate Hq|]. simpl in *.
    apply andb_prop in Hp. tauto. }
  destruct rest as [|p' rest].
  - simpl. split; [now apply no_double_ws_spacefree | intros _; exact Hstart].
  - change (join_sp (p :: p' :: rest)) with (p ++ SP :: join_sp (p' :: rest)).
    split.
    + apply no_double_ws_app; [assumption | now apply IH2 | assumption].
    + intros _. destruct p; [discriminate Hq | exact Hstart].
Qed.


(** ** Line reconstruction *)

Lemma fold_extend_anchor (g : list Item.t) (cur : Line.t) :
  Line.x (fold_left extend_line g cur) = Line.x cur /\
  Line.y (fold_left extend_line g cur) = Line.y cur /\
  Line.pageNum (fold_left extend_line g cur) = Line.pageNum cur.
Proof.
  revert cur. induction g as [|it g IH]; intros cur; simpl; [tauto|].
  destruct (IH (extend_line cur it)) as (Hx & Hy & Hp).
  rewrite Hx, Hy, Hp. repeat split.
Qed.

(** The loop, started with an open line, closes the rows that [row_from]
    cuts. *)
Lemma loop_rows (i : nat) (items : list Item.t) :
  forall (lines : list Line.t) (current : Line.t),
  flush (fold_left (line_step i) items (lines, Some current)) =
  lines ++ (let (g, gs) := row_from (Line.y current) items in
            fold_left extend_line g current :: map (row_line i) gs).
Proof.
  induction items as [|it r IH]; intros lines current; [reflexivity|].
  cbn [fold_left line_step row_from]. unfold same_row.
  destruct (Qle_bool (Qabs (js_sub (Line.y current) (tx5 it))) 3).
  - rewrite IH. cbn [extend_line Line.y].
    destruct (row_from (Line.y current) r) as [g gs]. reflexivity.
  - rewrite IH. cbn [start_line Line.y].
    destruct (row_from (tx5 it) r) as [g gs].
    rewrite <- app_assoc. reflexivity.
Qed.

Lemma flush_line_loop (i : nat) (items : list Item.t) :
  flush (line_loop i items) = map (row_line i) (rows items).
Proof.
  destruct items as [|it r]; [reflexivity|].
  unfold line_loop. cbn [fold_left line_step]. rewrite loop_rows.
  cbn [start_line Line.y rows]. destruct (row_from (tx5 it) r) as [g gs].
  reflexivity.
Qed.

Lemma row_from_concat (items : list Item.t) :
  forall y0 : Q,
  fst (row_from y0 items) ++ concat (map row_items (snd (row_from y0 items)))
  = items.
Proof.
  induction items as [|it r IH]; intros y0; [reflexivity|].
  cbn [row_from]. destruct (Qle_bool (Qabs (js_sub y0 (tx5 it))) 3).
  - specialize (IH y0). destruct (row_from y0 r) as [g gs].
    cbn [fst snd] in *. rewrite <- app_comm_cons. now rewrite IH.
  - specialize (IH (tx5 it)). destruct (row_from (tx5 it) r) as [g gs].
    cbn [fst snd map concat row_items app] in *. now rewrite IH.
Qed.

Lemma rows_concat (items : list Item.t) :
  concat (map row_items (rows items)) = items.
Proof.
  destruct items as [|it r]; [reflexivity|]. cbn [rows].
  pose proof (row_from_concat r (tx5 it)) as H.
  destruct (row_from (tx5 it) r) as [g gs].
  cbn [fst snd map concat row_items app] in *. now rewrite H.
Qed.

Lemma length_concat_rows (gs : list (Item.t * list Item.t)) :
  (List.length gs <= List.length (concat (map row_items gs)))%nat.
Proof.
  induction gs as [|g gs IH]; simpl; [lia|].
  rewrite length_app. simpl. lia.
Qed.

Lemma rows_length (items : list Item.t) :
  (List.length (rows items) <= List.length items)%nat.
Proof.
  rewrite <- (rows_concat items) at 2. apply length_concat_rows.
Qed.

Lemma normalize_lines_length (lines : list Line.t) :
  (List.length (normalize_lines lines) <= List.length lines)%nat.
Proof.
  induction lines as [|l lines IH]; simpl; [lia|].
  rewrite length_app.
  destruct (0 <? List.length (normalize (Line.text l)))%nat; simpl; lia.
Qed.

Lemma words_fold_text (g : list Item.t) :
  forall cur : Line.t,
  words (Line.text (fold_left extend_line g cur)) =
  words (Line.text cur) ++ concat (map (fun it => words (item_str it)) g).
Proof.
  induction g as [|it g IH]; intros cur; simpl.
  - now rewrite app_nil_r.
  - rewrite IH. simpl. rewrite words_app_space by reflexivity.
    now rewrite <- app_assoc.
Qed.

Lemma words_row_line (i : nat) (row : Item.t * list Item.t) :
  words (Line.text (row_line i row)) =
  concat (map (fun it => words (item_str it)) (row_items row)).
Proof. unfold row_line. rewrite words_fold_text. reflexivity. Qed.

Lemma words_normalize_lines (lines : list Line.t) :
  concat (map words (map Line.text (normalize_lines lines))) =
  concat (map words (map Line.text lines)).
Proof.
  induction lines as [|l lines IH]; [reflexivity|]. simpl.
  rewrite !map_app, concat_app, IH. f_equal.
  destruct (normalize (Line.text l)) as [|c t] eqn:E; simpl.
  - now rewrite (normalize_nil_words _ E).
  - rewrite <- E, words_normalize. now rewrite app_nil_r.
Qed.

Lemma words_rows (i : nat) (gs : list (Item.t * list Item.t)) :
  concat (map words (map Line.text (map (row_line i) gs))) =
  concat (map (fun it => words (item_str it)) (concat (map row_items gs))).
Proof.
  induction gs as [|g gs IH]; [reflexivity|]. cbn [map concat].
  rewrite words_row_line, IH, map_app, concat_app. reflexivity.
Qed.

(** The words of the lines of a page are the words of its fragments. *)
Lemma words_page_lines (i : nat) (items : list Item.t) :
  concat (map words (map Line.text (page_lines i items))) =
  concat (map words (map item_str items)).
Proof.
  unfold page_lines.
  rewrite words_normalize_lines, flush_line_loop, words_rows, rows_concat.
  now rewrite map_map.
Qed.

(** A line of a page is the normalised line of one of its rows. *)
Lemma page_lines_row (i : nat) (items : list Item.t) (l : Line.t) :
  In l (page_lines i items) ->
  exists row,
    In row (rows items) /\
    l = Line.with_text (row_line i row)
          (normalize (Line.text (row_line i row))) /\
    normalize (Line.text (row_line i row)) <> [].
Proof.
  unfold page_lines, normalize_lines. rewrite flush_line_loop.
  intros H. apply in_flat_map in H. destruct H as (raw & Hraw & Hl).
  apply in_map_iff in Hraw. destruct Hraw as (row & <- & Hrow).
  exists row. split; [exact Hrow|].
  destruct (normalize (Line.text (row_line i row))) as [|c t];
    simpl in Hl; [contradiction|].
  destruct Hl as [<-|[]]. split; [reflexivity | discriminate].
Qed.


Lemma fold_max_ge (g : list Item.t) : forall m : Q, m <= fold_max g m.
Proof.
  induction g as [|it g IH]; intros m; simpl; [apply Qle_refl|].
  eapply Qle_trans; [apply Q.le_max_l | apply IH].
Qed.




Lemma join_sp_app_head (a b : jsstring) (rest : list jsstring) :
  join_sp ((a ++ SP :: b) :: rest) = a ++ SP :: join_sp (b :: rest).
Proof.
  destruct rest as [|p rest]; [reflexivity|].
  cbn [join_sp]. rewrite <- app_assoc. reflexivity.
Qed.

Lemma text_fold_extend (g : list Item.t) :
  forall cur : Line.t,
  Line.text (fold_left extend_line g cur) =
  join_sp (Line.text cur :: map item_str g).
Proof.
  induction g as [|it g IH]; intros cur; [reflexivity|].
  cbn [fold_left map]. rewrite IH. cbn [extend_line Line.text].
  apply join_sp_app_head.
Qed.

Lemma row_line_text (i : nat) (row : Item.t * list Item.t) :
  Line.text (row_line i row) = join_sp (map item_str (row_items row)).
Proof. unfold row_line. rewrite text_fold_extend. reflexivity. Qed.

(** C2, as the code has it.  While a line is open, a fragment is merged
    into it when the distance of its [y] to the [y] of the line, as the
    loop computes it (the exact difference rounded to the nearest double),
    is at most 3; the text is appended after one space, the width becomes
    the farther right edge minus [x], each sum and the difference rounded,
    and the height the larger one.  When the computed distance is above 3,
    the line is closed and a new one opens with the fragment.  The computed
    distance is at most 3 exactly when the exact distance is at most
    [3 + 2^-52]. *)
Theorem row_merge_tolerance (i : nat) (pre : list Item.t) (it : Item.t)
    (lines : list Line.t) (current : Line.t) :
  line_loop i pre = (lines, Some current) ->
  (Qabs (round64 (Line.y current - tx5 it)) <= 3 ->
   line_loop i (pre ++ [it]) =
   (lines,
    Some (Line.Make
            (Line.text current ++ SP :: item_str it)
            (Line.x current) (Line.y current)
            (round64
               (Qmax (round64 (Line.x current + Line.width current))
                     (round64 (tx4 it + item_w it))
                - Line.x current))
            (Qmax (Line.height current) (item_h it))
            (Line.pageNum current))))
  /\
  (3 < Qabs (round64 (Line.y current - tx5 it)) ->
   line_loop i (pre ++ [it]) = (lines ++ [current], Some (start_line i it)))
  /\
  (Qabs (round64 (Line.y current - tx5 it)) <= 3 <->
   Qabs (Line.y current - tx5 it) <= 3 + pow2 (-52)).
Proof.
  intros Hpre. unfold line_loop in *. rewrite fold_left_app, Hpre.
  cbn [fold_left line_step]. unfold same_row, js_sub.
  split; [|split].
  - intros Hy. apply Qle_bool_iff in Hy. rewrite Hy. reflexivity.
  - intros Hy.
    destruct (Qle_bool (Qabs (round64 (Line.y current - tx5 it))) 3) eqn:E;
      [|reflexivity].
    apply Qle_bool_iff in E. exfalso. exact (Qlt_not_le _ _ Hy E).
  - apply round64_test_3.
Qed.

Lemma row_merge_tolerance_witness :
  line_loop 1 ([frag_hello] ++ [frag_world]) =
    ([], Some (Line.Make (lit "Hello  world ") 72 700
                 (round64 (Qmax (round64 (72 + 30)) (round64 (110 + 40)) - 72))
                 (Qmax (Qmax (Qabs 12) 10) (Qmax (Qabs 12) 10)) 1))
  /\ line_loop 1 ([frag_hello] ++ [frag_below]) =
    ([] ++ [start_line 1 frag_hello], Some (start_line 1 frag_below)).
Proof.
  split.
  - apply (proj1 (row_merge_tolerance 1 [frag_hello] frag_world
                    (lines := []) (current := start_line 1 frag_hello)
                    eq_refl)).
    apply Qle_bool_iff. vm_compute. reflexivity.
  - apply (proj1 (proj2 (row_merge_tolerance 1 [frag_hello] frag_below
                    (lines := []) (current := start_line 1 frag_hello)
                    eq_refl))).
    vm_compute. reflexivity.
Defined.

(** C2, as the claim has it, fails: the doubles 0.1 and 3.1 are more than 3
    apart (by [3 * 2^-55]), their difference rounds to 3, and the loop
    merges the second fragment instead of opening a new line. *)
Lemma row_merge_beyond_three :
  line_loop 1 [frag_low] = ([], Some (start_line 1 frag_low))
  /\ 3 < Qabs (Line.y (start_line 1 frag_low) - tx5 frag_high)
  /\ Qabs (Line.y (start_line 1 frag_low) - tx5 frag_high)
     == 3 + 3 * pow2 (-55)
  /\ line_loop 1 ([frag_low] ++ [frag_high]) =
     ([], Some (extend_line (start_line 1 frag_low) frag_high))
  /\ line_loop 1 ([frag_low] ++ [frag_high]) <>
     ([] ++ [start_line 1 frag_low], Some (start_line 1 frag_high)).
Proof.
  split; [reflexivity|]. split; [vm_compute; reflexivity|].
  split; [vm_compute; reflexivity|].
  assert (E : line_loop 1 ([frag_low] ++ [frag_high]) =
              ([], Some (extend_line (start_line 1 frag_low) frag_high)))
    by (vm_compute; reflexivity).
  split; [exact E|]. rewrite E. discriminate.
Qed.

(** C3. Line reconstruction keeps the order: a page gives at most as many
    lines as it has fragments, and the texts of the lines, joined in order,
    are the texts of the fragments, joined in order, up to normalisation of
    white space; both carry the same words in the same order. *)
Theorem reconstruction_order_preserving (i : nat) (items : list Item.t) :
  (List.length (page_lines i items) <= List.length items)%nat
  /\ normalize (join_sp (map Line.text (page_lines i items))) =
     normalize (join_sp (map item_str items))
  /\ concat (map words (map Line.text (page_lines i items))) =
     concat (map words (map item_str items)).
Proof.
  split; [|split].
  - unfold page_lines. rewrite flush_line_loop.
    etransitivity; [apply normalize_lines_length|].
    rewrite length_map. apply rows_length.
  - rewrite !normalize_words, !words_join_sp, words_page_lines. reflexivity.
  - apply words_page_lines.
Qed.



(** Whole numbers below [2^51] are on the grid of step 1: the right edge
    of the sample line is the exact one. *)
Example sample_row_on_grid :
  forall it, In it (row_items (frag_hello, [frag_world])) ->
  on_grid 0 (2 ^ 51) (tx4 it) /\ on_grid 0 (2 ^ 51) (item_w it).
Proof.
  intros it [<- | [<- | []]]; split;
    [exists 72%Z | exists 30%Z | exists 110%Z | exists 40%Z];
    (split; [vm_compute; reflexivity | lia]).
Qed.


(** ** Loading a file *)

Lemma jsstring_eqb_eq (a b : jsstring) : jsstring_eqb a b = true <-> a = b.
Proof.
  revert b. induction a as [|c a IH]; intros [|d b]; simpl;
    try (split; [discriminate | discriminate]); [tauto|].
  rewrite andb_true_iff, N.eqb_eq, IH. split.
  - intros [-> ->]. reflexivity.
  - intros H. injection H. tauto.
Qed.

(** The build throws as soon as one page does not give its text content. *)
Lemma extract_from_aborts (pdf : Pdf) (n : nat) :
  forall (i0 : nat) (out : list Line.t),
  (exists i page e,
      (i0 <= i < i0 + n)%nat /\ getPage pdf i = Normal page /\
      getTextContent page = Throw e) ->
  exists e, extract_from pdf i0 n out = Throw e.
Proof.
  induction n as [|n IH]; intros i0 out (i & page & e & Hi & Hp & Ht);
    [lia|].
  simpl. destruct (getPage pdf i0) as [p0|e0] eqn:E0; [|eauto].
  destruct (getTextContent p0) as [items|e1] eqn:E1; [|eauto].
  apply IH. exists i, page, e. repeat split; try assumption; try lia.
  destruct (Nat.eq_dec i i0) as [->|]; [|lia].
  rewrite E0 in Hp. injection Hp as ->. rewrite E1 in Ht. discriminate Ht.
Qed.

(** A finished build holds the lines of the pages and nothing else. *)
Lemma extract_from_lines (pdf : Pdf) (n : nat) :
  forall (i0 : nat) (out res : list Line.t) (l : Line.t),
  extract_from pdf i0 n out = Normal res ->
  In l res ->
  In l out \/
  exists i page items,
    (i0 <= i < i0 + n)%nat /\ getPage pdf i = Normal page /\
    getTextContent page = Normal items /\ In l (page_lines i items).
Proof.
  induction n as [|n IH]; intros i0 out res l Hres Hl; simpl in Hres.
  - injection Hres as <-. now left.
  - destruct (getPage pdf i0) as [page|e] eqn:Ep; [|discriminate Hres].
    destruct (getTextContent page) as [items|e] eqn:Et; [|discriminate Hres].
    destruct (IH _ _ _ _ Hres Hl) as [Hin | (i & p & its & Hi & Hp & Ht & Hin)].
    + apply in_app_or in Hin. destruct Hin as [Hin | Hin]; [now left|].
      right. exists i0, page, items. repeat split; try assumption; lia.
    + right. exists i, p, its. repeat split; try assumption; lia.
Qed.

(** C1. When a page of the document does not give its text content, the
    load ends without a corpus and without a rendered page, reports the
    error, and keeps the decoded document in [gPdf] together with its page
    count: the session is not empty. *)
Theorem failed_extraction_keeps_document (libs : Libs) (f : File)
    (data : list N) (pdf : Pdf) (w : World) :
  file_type f = lit "application/pdf" ->
  arrayBuffer f = Normal data ->
  getDocument libs data = Normal pdf ->
  (exists i page e,
      (1 <= i <= numPages pdf)%nat /\ getPage pdf i = Normal page /\
      getTextContent page = Throw e) ->
  exists (e : exn) (w' : World),
    loadPdfFile libs (Some f) w = (Normal tt, w')
    /\ corpus w' = []
    /\ renderedPages w' = ∅
    /\ pdfContainer w' = []
    /\ gPdf w' = Some pdf
    /\ pageCountDisplay w' = lit "pages: " ++ dec (numPages pdf)
    /\ statusEl w' = lit "Error loading PDF. See console."
    /\ console w' = console w ++ [("Failed to load PDF:"%string, e)].
Proof.
  intros Htype Hbuf Hdoc Hpage.
  destruct (@extract_from_aborts pdf (numPages pdf) 1 []) as [e He].
  { destruct Hpage as (i & page & e & Hi & Hp & Ht).
    exists i, page, e. repeat split; try assumption; lia. }
  exists e. eexists. split.
  - unfold loadPdfFile. apply jsstring_eqb_eq in Htype. rewrite Htype.
    cbn [negb].
    cbv [mbind M_bind clearAll setStatus modify await try_catch load_body
         console_log extractTextCorpus].
    rewrite Hbuf, Hdoc, He. reflexivity.
  - repeat split; reflexivity.
Qed.

Lemma failed_extraction_keeps_document_witness :
  exists (e : exn) (w' : World),
    loadPdfFile sample_libs (Some (sample_file "application/pdf")) empty_world
      = (Normal tt, w')
    /\ corpus w' = []
    /\ renderedPages w' = ∅
    /\ pdfContainer w' = []
    /\ gPdf w' = Some unreadable_pdf
    /\ pageCountDisplay w' = lit "pages: " ++ dec (numPages unreadable_pdf)
    /\ statusEl w' = lit "Error loading PDF. See console."
    /\ console w' = console empty_world ++ [("Failed to load PDF:"%string, e)].
Proof.
  apply (@failed_extraction_keeps_document sample_libs
           (sample_file "application/pdf") [37; 80; 68; 70]%N unreadable_pdf
           empty_world eq_refl eq_refl eq_refl).
  exists 1%nat, unreadable_page, "text content unavailable"%string.
  repeat split; simpl; lia.
Defined.

(** C8. A file whose type is not [application/pdf] is refused with an
    alert and nothing else happens: the document, the corpus, the set of
    rendered pages, the pages shown, the results and the status stay as
    they were. *)
Theorem wrong_type_rejected (libs : Libs) (f : File) (w : World) :
  file_type f <> lit "application/pdf" ->
  exists w' : World,
    loadPdfFile libs (Some f) w = (Normal tt, w')
    /\ alerts w' = alerts w ++ [lit "Please provide a PDF file."]
    /\ gPdf w' = gPdf w
    /\ corpus w' = corpus w
    /\ renderedPages w' = renderedPages w
    /\ pdfContainer w' = pdfContainer w
    /\ resultsPanel w' = resultsPanel w
    /\ statusEl w' = statusEl w
    /\ pageCountDisplay w' = pageCountDisplay w
    /\ searchBox w' = searchBox w
    /\ thresholdInput w' = thresholdInput w
    /\ console w' = console w
    /\ timers w' = timers w.
Proof.
  intros Htype. eexists. split.
  - unfold loadPdfFile.
    destruct (jsstring_eqb (file_type f) (lit "application/pdf")) eqn:E.
    + apply jsstring_eqb_eq in E. contradiction.
    + reflexivity.
  - repeat split; reflexivity.
Qed.

Lemma wrong_type_rejected_witness :
  exists w' : World,
    loadPdfFile sample_libs (Some (sample_file "image/png")) empty_world
      = (Normal tt, w')
    /\ alerts w' = alerts empty_world ++ [lit "Please provide a PDF file."]
    /\ gPdf w' = gPdf empty_world
    /\ corpus w' = corpus empty_world
    /\ renderedPages w' = renderedPages empty_world
    /\ pdfContainer w' = pdfContainer empty_world
    /\ resultsPanel w' = resultsPanel empty_world
    /\ statusEl w' = statusEl empty_world
    /\ pageCountDisplay w' = pageCountDisplay empty_world
    /\ searchBox w' = searchBox empty_world
    /\ thresholdInput w' = thresholdInput empty_world
    /\ console w' = console empty_world
    /\ timers w' = timers empty_world.
Proof.
  apply (@wrong_type_rejected sample_libs (sample_file "image/png")
           empty_world).
  discriminate.
Defined.

(** X16. A decoder that rejects the bytes leaves the session as
    [clearAll] made it, with the error status. *)
Lemma failed_decode_leaves_empty (libs : Libs) (f : File) (data : list N)
    (e : exn) (w : World) :
  file_type f = lit "application/pdf" ->
  arrayBuffer f = Normal data ->
  getDocument libs data = Throw e ->
  exists w' : World,
    loadPdfFile libs (Some f) w = (Normal tt, w')
    /\ gPdf w' = None /\ corpus w' = [] /\ renderedPages w' = ∅
    /\ pdfContainer w' = [] /\ pageCountDisplay w' = lit "pages: ?"
    /\ statusEl w' = lit "Error loading PDF. See console.".
Proof.
  intros Htype Hbuf Hdoc. eexists. split.
  - unfold loadPdfFile. apply jsstring_eqb_eq in Htype. rewrite Htype.
    cbn [negb].
    cbv [mbind M_bind clearAll setStatus modify await try_catch load_body
         console_log].
    rewrite Hbuf, Hdoc. reflexivity.
  - repeat split; reflexivity.
Qed.

(** ** Searching *)

Lemma startsWith_spec (s q : jsstring) :
  startsWith s q = true <-> exists post, s = q ++ post.
Proof.
  revert s. induction q as [|d q IH]; intros s.
  - destruct s; simpl; split; eauto.
  - destruct s as [|c s]; simpl.
    + split; [discriminate | intros [post H]; discriminate H].
    + rewrite andb_true_iff, N.eqb_eq, IH. split.
      * intros [-> [post ->]]. eauto.
      * intros [post H]. injection H as -> ->. eauto.
Qed.

Lemma includes_spec (s q : jsstring) :
  includes s q = true <-> exists pre post, s = pre ++ q ++ post.
Proof.
  induction s as [|c s IH]; cbn [includes].
  - rewrite orb_false_r, startsWith_spec. split.
    + intros [post H]. exists [], post. exact H.
    + intros (pre & post & H). symmetry in H.
      apply app_eq_nil in H. destruct H as [-> H]. eauto.
  - rewrite orb_true_iff, startsWith_spec, IH. split.
    + intros [[post H] | (pre & post & ->)].
      * exists [], post. exact H.
      * exists (c :: pre), post. reflexivity.
    + intros (pre & post & H). destruct pre as [|c' pre].
      * left. eauto.
      * right. injection H as -> ->. eauto.
Qed.

Section SearchFacts.
Context (libs : Libs).

Lemma fallback_map_filter (lines : list Line.t) (q : jsstring) :
  substring_fallback libs lines q =
  map (fun l => {| item := l; score := Some 1 |})
      (List.filter
         (fun l => includes (toLowerCase libs (Line.text l))
                            (toLowerCase libs q)) lines).
Proof.
  unfold substring_fallback.
  induction lines as [|l lines IH]; [reflexivity|]. simpl.
  destruct (includes _ _); simpl; now rewrite IH.
Qed.


Lemma result_entries_target (matches : list Result) :
  forall idx : nat,
  map target (result_entries libs idx matches) = map item matches.
Proof.
  induction matches as [|m r IH]; intros idx; [reflexivity|].
  simpl. now rewrite IH.
Qed.

(** C5. A search with a document and a query shows the first 30 hits at
    most and reports the number of all hits. *)
Theorem results_capped_count_total (w : World) (pdf : Pdf) :
  gPdf w = Some pdf ->
  trim (searchBox w) <> [] ->
  let results :=
    search_results libs (corpus w) (parseFloat libs (thresholdInput w))
                   (trim (searchBox w)) in
  exists w' : World,
    runSearch libs w = (Normal tt, w')
    /\ match results with
       | [] =>
           resultsPanel w' = PanelHtml (muted "No matches found.")
           /\ statusEl w' = lit "No matches found."
       | _ :: _ =>
           exists entries : list Entry,
             resultsPanel w' = PanelList entries
             /\ entries = result_entries libs 0 (firstn 30 results)
             /\ map target entries = map item (firstn 30 results)
             /\ (List.length entries <= 30)%nat
             /\ statusEl w' =
                  lit "Found " ++ dec (List.length results)
                  ++ lit " matches. Showing top "
                  ++ dec (Nat.min 30 (List.length results)) ++ lit "."
       end.
Proof.
  intros Hdoc Hq results. subst results.
  unfold runSearch.
  cbv [mbind M_bind gets setStatus modify alert renderResults].
  rewrite Hdoc.
  destruct (trim (searchBox w)) as [|c q] eqn:E; [contradiction|].
  cbn [List.length Nat.ltb Nat.leb corpus thresholdInput set_statusEl].
  destruct (search_results libs (corpus w)
              (parseFloat libs (thresholdInput w)) (c :: q))
    as [|r rs] eqn:R.
  - eexists. split; [reflexivity|]. split; reflexivity.
  - eexists. split; [reflexivity|].
    cbn [firstn resultsPanel statusEl set_statusEl set_resultsPanel].
    eexists. split; [reflexivity|]. split; [reflexivity|].
    split; [apply (result_entries_target (r :: firstn 29 rs) 0)|].
    split.
    + rewrite <- (length_map target), result_entries_target, length_map.
      apply (firstn_le_length 30 (r :: rs)).
    + change (r :: firstn 29 rs) with (firstn 30 (r :: rs)).
      rewrite length_firstn. reflexivity.
Qed.
End SearchFacts.

Lemma js_toLowerCase_ascii (s : jsstring) :
  forallb is_ascii s = true -> js_toLowerCase s = map upper_to_lower s.
Proof.
  unfold js_toLowerCase. generalize false.
  induction s as [|c s IH]; intros b Hs; [reflexivity|].
  cbn [forallb] in Hs. apply andb_prop in Hs. destruct Hs as [Hc Hs].
  cbn [lower_from map]. rewrite (IH _ Hs). f_equal.
  unfold is_ascii in Hc. apply N.ltb_lt in Hc.
  assert (E1 : N.eqb c SIGMA = false)
    by (apply N.eqb_neq; unfold SIGMA; lia).
  assert (E2 : is_greek_capital c = false).
  { unfold is_greek_capital.
    replace (N.leb 913 c) with false by (symmetry; apply N.leb_gt; lia).
    replace (N.leb 931 c) with false by (symmetry; apply N.leb_gt; lia).
    reflexivity. }
  rewrite E1. unfold lower_unit, upper_to_lower. rewrite E2, orb_false_r.
  reflexivity.
Qed.


Lemma results_capped_count_total_witness :
  exists w' : World,
    runSearch sample_libs search_world = (Normal tt, w')
    /\ statusEl w' = lit "Found 31 matches. Showing top 30."
    /\ exists entries : list Entry,
         resultsPanel w' = PanelList entries
         /\ List.length entries = 30%nat
         /\ map target entries = repeat (sample_line "Alpha Beta" 1) 30.
Proof.
  destruct (@results_capped_count_total sample_libs search_world
              unreadable_pdf eq_refl) as (w' & Hrun & H).
  - discriminate.
  - exists w'. split; [exact Hrun|].
    destruct H as (entries & Hpanel & Hentries & Htarget & _ & Hstatus).
    split; [exact Hstatus|].
    exists entries. split; [exact Hpanel|].
    split; [rewrite Hentries; reflexivity | exact Htarget].
Defined.

(** The example of the specification: the engine finds nothing, the line
    contains the query up to case. *)
Example fallback_finds_revenue :
  search_results sample_libs [sample_line "Quarterly Revenue Report" 1]
                 (Some 0) (lit "revenue")
  = [{| item := sample_line "Quarterly Revenue Report" 1;
        score := Some 1 |}].
Proof. reflexivity. Qed.

(** ** Highlighting *)

Lemma node_ind_children (P : node -> Prop) :
  (forall t i c s ch, Forall P ch -> P (Element t i c s ch)) ->
  forall n, P n.
Proof.
  intros H. fix IH 1. intros [t i c s ch]. apply H.
  induction ch as [|k r IHr]; constructor; [apply IH | exact IHr].
Qed.

Lemma count_remove_highlights (n : node) :
  count_highlights (remove_highlights n) = O.
Proof.
  induction n as [t i c s ch IH] using node_ind_children.
  cbn [remove_highlights count_highlights].
  induction ch as [|k r IHr]; [reflexivity|].
  inversion IH as [|? ? Hk Hr]; subst.
  destruct (has_class "highlight" k) eqn:E; [exact (IHr Hr)|].
  assert (E' : has_class "highlight" (remove_highlights k) = false).
  { destruct k. exact E. }
  rewrite E', Hk, (IHr Hr). reflexivity.
Qed.

Lemma highlight_element_class (rect : Rect4) :
  has_class "highlight" (highlight_element rect) = true.
Proof. destruct rect as [[[r0 r1] r2] r3]. reflexivity. Qed.

(** C9. The highlights of the page are removed first; when the conversion
    of the rectangle throws, [highlightMatch] still returns, the page is
    left without any highlight and the failure goes to the console. *)
Theorem failed_highlight_clears (wrapper : node) (vp : Viewport) (box : Box)
    (e : exn) (w : World) :
  convertToViewportRectangle vp
    (or_default 0 (box_x box), or_default 0 (box_y box),
     or_default 0 (box_x box) + or_default 50 (box_width box),
     or_default 0 (box_y box) + or_default 12 (box_height box)) = Throw e ->
  exists (wrapper' : node) (w' : World),
    highlightMatch wrapper vp box w = (Normal wrapper', w')
    /\ wrapper' = remove_highlights wrapper
    /\ count_highlights wrapper' = O
    /\ console w' = console w ++ [("Highlight failed"%string, e)]
    /\ timers w' = timers w.
Proof.
  intros Hconv. exists (remove_highlights wrapper). eexists. split.
  - unfold highlightMatch.
    cbv [mbind M_bind try_catch await console_log modify mret M_ret].
    rewrite Hconv. reflexivity.
  - split; [reflexivity|]. split; [apply count_remove_highlights|].
    split; reflexivity.
Qed.

Lemma failed_highlight_clears_witness :
  exists (wrapper' : node) (w' : World),
    highlightMatch highlighted_page broken_viewport
      (box_of_line hello_world) empty_world = (Normal wrapper', w')
    /\ wrapper' = remove_highlights highlighted_page
    /\ count_highlights wrapper' = O
    /\ console w' =
       console empty_world ++ [("Highlight failed"%string,
                                "bad viewport"%string)]
    /\ timers w' = timers empty_world.
Proof.
  apply (@failed_highlight_clears highlighted_page broken_viewport
           (box_of_line hello_world) "bad viewport"%string empty_world).
  reflexivity.
Defined.



(** ** Escaping *)

Lemma is_special_false (c : jschar) :
  is_special c = false -> c <> AMP /\ c <> LT /\ c <> GT /\ c <> QUOT.
Proof.
  unfold is_special. rewrite !orb_false_iff, !N.eqb_neq. tauto.
Qed.

Lemma escape_char_plain (c : jschar) : is_special c = false -> escape_char c = [c].
Proof.
  intros H. apply is_special_false in H. destruct H as (H1 & H2 & H3 & H4).
  apply N.eqb_neq in H1, H2, H3, H4. unfold escape_char.
  now rewrite H1, H2, H3, H4.
Qed.

Lemma escape_char_cases (c : jschar) :
  (is_special c = true /\
   (escape_char c = lit "&amp;" \/ escape_char c = lit "&lt;" \/
    escape_char c = lit "&gt;" \/ escape_char c = lit "&quot;"))
  \/ (is_special c = false /\ escape_char c = [c]).
Proof.
  destruct (is_special c) eqn:E; [left | right; auto using escape_char_plain].
  split; [reflexivity|]. unfold is_special in E. unfold escape_char.
  destruct (N.eqb c AMP); [tauto|]. destruct (N.eqb c LT); [tauto|].
  destruct (N.eqb c GT); [tauto|]. destruct (N.eqb c QUOT); [tauto|].
  discriminate E.
Qed.

Lemma escape_char_clean (c d : jschar) :
  d = LT \/ d = GT \/ d = QUOT -> ~ In d (escape_char c).
Proof.
  intros Hd Hin.
  destruct (escape_char_cases c) as [[_ H] | [Hs H]].
  - destruct H as [H | [H | [H | H]]]; rewrite H in Hin;
      destruct Hd as [-> | [-> | ->]]; vm_compute in Hin;
      repeat (destruct Hin as [Hin | Hin]; [discriminate Hin|]);
      exact Hin.
  - rewrite H in Hin. destruct Hin as [<- | []].
    apply is_special_false in Hs. destruct Hd as [-> | [-> | ->]]; tauto.
Qed.

Lemma escape_char_amp (c : jschar) :
  count_occ N.eq_dec (escape_char c) AMP = if is_special c then 1%nat else O.
Proof.
  destruct (escape_char_cases c) as [[Hs H] | [Hs H]]; rewrite Hs.
  - destruct H as [H | [H | [H | H]]]; rewrite H; reflexivity.
  - rewrite H. apply is_special_false in Hs. simpl.
    destruct (N.eq_dec c AMP); [tauto | reflexivity].
Qed.

Lemma split_after_clean (x : jschar) (l t pre post : jsstring) :
  ~ In x l -> l ++ t = pre ++ x :: post ->
  exists pre', pre = l ++ pre' /\ t = pre' ++ x :: post.
Proof.
  revert pre. induction l as [|c l IH]; intros pre Hl H.
  - exists pre. split; [reflexivity | exact H].
  - destruct pre as [|d pre].
    + injection H as Hc _. exfalso. apply Hl. left. exact Hc.
    + injection H as <- H.
      destruct (IH pre (fun Hin => Hl (or_intror Hin)) H) as (pre' & -> & Ht).
      exists pre'. split; [reflexivity | exact Ht].
Qed.

(** Every ampersand of the result opens one of the four entities. *)
Lemma escapeHtml_ampersand (s : jsstring) :
  forall pre post : jsstring,
  escapeHtml s = pre ++ AMP :: post ->
  exists rest,
    post = lit "amp;" ++ rest \/ post = lit "lt;" ++ rest
    \/ post = lit "gt;" ++ rest \/ post = lit "quot;" ++ rest.
Proof.
  induction s as [|c s IH]; intros pre post H.
  - destruct pre; discriminate H.
  - change (escapeHtml (c :: s)) with (escape_char c ++ escapeHtml s) in H.
    destruct (escape_char_cases c) as [[Hs Hc] | [Hs Hc]].
    + assert (Hent : exists ent,
                 escape_char c = AMP :: ent /\ ~ In AMP ent
                 /\ (ent = lit "amp;" \/ ent = lit "lt;"
                     \/ ent = lit "gt;" \/ ent = lit "quot;")).
      { destruct Hc as [Hc | [Hc | [Hc | Hc]]]; rewrite Hc;
          eexists; (split; [reflexivity|]);
          (split; [intros Hin;
                   repeat (destruct Hin as [Hin | Hin]; [discriminate Hin|]);
                   exact Hin|]); tauto. }
      destruct Hent as (ent & He & Hclean & Hcases). rewrite He in H.
      destruct pre as [|d pre].
      * injection H as H. exists (escapeHtml s). rewrite <- H.
        destruct Hcases as [-> | [-> | [-> | ->]]]; tauto.
      * injection H as _ H.
        destruct (@split_after_clean _ _ _ _ _ Hclean H) as (pre' & _ & Ht).
        exact (IH pre' post Ht).
    + rewrite Hc in H. apply is_special_false in Hs.
      assert (Hclean : ~ In AMP [c])
        by (intros [E | []]; tauto).
      destruct (@split_after_clean _ _ _ _ _ Hclean H) as (pre' & _ & Ht).
      exact (IH pre' post Ht).
Qed.

(** C10. [escapeHtml] replaces the ampersand, the two angle brackets and
    the double quote, wherever they stand, by their entities and copies
    every other unit (the apostrophe too); its result has no angle bracket
    and no double quote, and none of its ampersands is raw: there is
    exactly one for each replaced character, and each one opens one of the
    four entities. *)
Theorem escapeHtml_entities (s : jsstring) :
  (forall (a b : jsstring) (c : jschar),
      escapeHtml (a ++ c :: b) = escapeHtml a ++ escape_char c ++ escapeHtml b)
  /\ escape_char AMP = lit "&amp;"
  /\ escape_char LT = lit "&lt;"
  /\ escape_char GT = lit "&gt;"
  /\ escape_char QUOT = lit "&quot;"
  /\ (forall c : jschar, is_special c = false -> escape_char c = [c])
  /\ escape_char 39%N = [39%N]
  /\ ~ In LT (escapeHtml s)
  /\ ~ In GT (escapeHtml s)
  /\ ~ In QUOT (escapeHtml s)
  /\ count_occ N.eq_dec (escapeHtml s) AMP
     = List.length (List.filter is_special s)
  /\ (forall pre post : jsstring,
        escapeHtml s = pre ++ AMP :: post ->
        exists rest,
          post = lit "amp;" ++ rest \/ post = lit "lt;" ++ rest
          \/ post = lit "gt;" ++ rest \/ post = lit "quot;" ++ rest).
Proof.
  split.
  { intros a b c. unfold escapeHtml. rewrite flat_map_app. reflexivity. }
  do 4 (split; [reflexivity|]).
  split; [exact escape_char_plain|]. split; [reflexivity|].
  assert (Hclean : forall d, d = LT \/ d = GT \/ d = QUOT ->
                             ~ In d (escapeHtml s)).
  { intros d Hd Hin. unfold escapeHtml in Hin. apply in_flat_map in Hin.
    destruct Hin as (c & _ & Hc). exact (escape_char_clean c Hd Hc). }
  split; [apply Hclean; tauto|]. split; [apply Hclean; tauto|].
  split; [apply Hclean; tauto|].
  split; [|apply escapeHtml_ampersand].
  clear Hclean. induction s as [|c s IH]; [reflexivity|].
  change (escapeHtml (c :: s)) with (escape_char c ++ escapeHtml s).
  rewrite count_occ_app, escape_char_amp.
  etransitivity; [apply f_equal, IH|].
  cbn [List.filter]. destruct (is_special c); reflexivity.
Qed.

(* ================================================================== *)
(** * Part III: further properties of the script                       *)
(* ================================================================== *)

(** ** Normalised text *)

Lemma replace_spacefree_app (w t : jsstring) (b : bool) :
  spacefree w = true -> w <> [] ->
  replace_ws_runs b (w ++ t) = w ++ replace_ws_runs false t.
Proof.
  revert b. induction w as [|c w IH]; intros b Hw Hne; [contradiction|].
  simpl in Hw. apply andb_prop in Hw. destruct Hw as [Hc Hw].
  apply negb_true_iff in Hc. simpl. rewrite Hc. f_equal.
  destruct w as [|d w]; [reflexivity|]. apply IH; [exact Hw | discriminate].
Qed.

Lemma replace_starts_nonspace (t : jsstring) :
  starts_nonspace t = true ->
  replace_ws_runs true t = replace_ws_runs false t.
Proof.
  destruct t as [|c t]; [discriminate|]. simpl. intros H.
  apply negb_true_iff in H. now rewrite H.
Qed.

Lemma nonempty_not_nil (w : jsstring) : nonempty w = true -> w <> [].
Proof. destruct w; [discriminate | discriminate]. Qed.

Lemma replace_join_sp (parts : list jsstring) :
  Forall (fun w => spacefree w = true) parts ->
  Forall (fun w => nonempty w = true) parts ->
  replace_ws_runs false (join_sp parts) = join_sp parts.
Proof.
  induction parts as [|p rest IH]; intros Hs Hn; [reflexivity|].
  inversion Hs as [|? ? Hp Hs']; inversion Hn as [|? ? Hq Hn']; subst.
  destruct rest as [|p' rest].
  - simpl. rewrite <- (app_nil_r p) at 1.
    rewrite replace_spacefree_app; auto using nonempty_not_nil.
    apply app_nil_r.
  - change (join_sp (p :: p' :: rest)) with (p ++ SP :: join_sp (p' :: rest)).
    rewrite replace_spacefree_app; auto using nonempty_not_nil.
    f_equal. cbn [replace_ws_runs]. rewrite is_space_SP. f_equal.
    rewrite replace_starts_nonspace.
    + now apply IH.
    + apply (join_sp_shape Hs' Hn'). discriminate.
Qed.

Lemma join_sp_only_plain_spaces (parts : list jsstring) :
  Forall (fun w => spacefree w = true) parts ->
  forall c, In c (join_sp parts) -> is_space c = true -> c = SP.
Proof.
  induction parts as [|p rest IH]; intros Hs c Hin Hc; [contradiction|].
  inversion Hs as [|? ? Hp Hs']; subst.
  assert (Hword : In c p -> False).
  { intros Hcp. unfold spacefree in Hp.
    rewrite forallb_forall in Hp. specialize (Hp c Hcp).
    rewrite Hc in Hp. discriminate Hp. }
  destruct rest as [|p' rest]; [exact (False_ind _ (Hword Hin))|].
  change (join_sp (p :: p' :: rest)) with (p ++ SP :: join_sp (p' :: rest))
    in Hin.
  apply in_app_or in Hin. destruct Hin as [Hin | [Hin | Hin]].
  - exact (False_ind _ (Hword Hin)).
  - now symmetry.
  - now apply IH.
Qed.

(** X1. The text kept for a line is a fixed point of the normalisation:
    it has no run of white space left to replace and nothing to trim,
    normalising it again changes nothing, and the only white-space unit it
    can hold is the plain space. *)
Theorem normalize_fixed_point (s : jsstring) :
  replace_ws_runs false (normalize s) = normalize s
  /\ trim (normalize s) = normalize s
  /\ normalize (normalize s) = normalize s
  /\ (forall c, In c (normalize s) -> is_space c = true -> c = SP).
Proof.
  assert (Hrep : replace_ws_runs false (normalize s) = normalize s).
  { rewrite normalize_words.
    apply replace_join_sp; [apply words_spacefree | apply words_nonempty]. }
  assert (Hidem : normalize (normalize s) = normalize s).
  { rewrite (normalize_words (normalize s)), words_normalize.
    symmetry. apply normalize_words. }
  split; [exact Hrep|]. split; [|split; [exact Hidem|]].
  - transitivity (normalize (normalize s)); [|exact Hidem].
    change (normalize (normalize s))
      with (trim (replace_ws_runs false (normalize s))).
    now rewrite Hrep.
  - rewrite normalize_words.
    apply join_sp_only_plain_spaces, words_spacefree.
Qed.

(** ** Escaping, again *)

Lemma is_special_true (c : jschar) :
  is_special c = true -> c = AMP \/ c = LT \/ c = GT \/ c = QUOT.
Proof.
  unfold is_special. rewrite !orb_true_iff, !N.eqb_eq. tauto.
Qed.

Lemma escape_char_inj (c d : jschar) (a b : jsstring) :
  escape_char c ++ a = escape_char d ++ b -> c = d /\ a = b.
Proof.
  intros H.
  destruct (is_special c) eqn:Ec; destruct (is_special d) eqn:Ed.
  - apply is_special_true in Ec, Ed.
    destruct Ec as [-> | [-> | [-> | ->]]];
      destruct Ed as [-> | [-> | [-> | ->]]];
      vm_compute in H; try discriminate H;
      (split; [reflexivity | congruence]).
  - rewrite (escape_char_plain _ Ed) in H.
    apply is_special_false in Ed. apply is_special_true in Ec.
    destruct Ec as [-> | [-> | [-> | ->]]]; vm_compute in H;
      injection H as H _; subst d; exfalso; tauto.
  - rewrite (escape_char_plain _ Ec) in H.
    apply is_special_false in Ec. apply is_special_true in Ed.
    destruct Ed as [-> | [-> | [-> | ->]]]; vm_compute in H;
      injection H as H _; subst c; exfalso; tauto.
  - rewrite (escape_char_plain _ Ec), (escape_char_plain _ Ed) in H.
    injection H as -> ->. split; reflexivity.
Qed.

Lemma escape_char_not_nil (c : jschar) : escape_char c <> [].
Proof.
  destruct (escape_char_cases c) as [[_ H] | [_ H]].
  - destruct H as [H | [H | [H | H]]]; rewrite H; discriminate.
  - rewrite H. discriminate.
Qed.

(** X2. Escaping loses nothing: two texts with the same escaped form are
    the same text. *)
Theorem escapeHtml_injective (a b : jsstring) :
  escapeHtml a = escapeHtml b -> a = b.
Proof.
  revert b. induction a as [|c a IH]; intros [|d b] H.
  - reflexivity.
  - change (escapeHtml (d :: b)) with (escape_char d ++ escapeHtml b) in H.
    symmetry in H. apply app_eq_nil in H.
    destruct H as [H _]. now apply escape_char_not_nil in H.
  - change (escapeHtml (c :: a)) with (escape_char c ++ escapeHtml a) in H.
    apply app_eq_nil in H.
    destruct H as [H _]. now apply escape_char_not_nil in H.
  - change (escapeHtml (c :: a)) with (escape_char c ++ escapeHtml a) in H.
    change (escapeHtml (d :: b)) with (escape_char d ++ escapeHtml b) in H.
    apply escape_char_inj in H. destruct H as [-> H].
    f_equal. now apply IH.
Qed.

Lemma escapeHtml_injective_witness : lit "a<b" = lit "a<b".
Proof. apply escapeHtml_injective. reflexivity. Defined.

Lemma escape_char_length (c : jschar) :
  is_special c = true -> (4 <= List.length (escape_char c))%nat.
Proof.
  intros Hs. destruct (escape_char_cases c) as [[_ H] | [Hp _]].
  - destruct H as [H | [H | [H | H]]]; rewrite H; simpl; lia.
  - rewrite Hs in Hp. discriminate Hp.
Qed.

Lemma escapeHtml_length (s : jsstring) :
  (List.length s + 3 * List.length (List.filter is_special s)
   <= List.length (escapeHtml s))%nat.
Proof.
  induction s as [|c s IH]; [simpl; lia|].
  change (escapeHtml (c :: s)) with (escape_char c ++ escapeHtml s).
  rewrite length_app. cbn [List.filter List.length].
  pose proof (escape_char_length c) as Hlen.
  destruct (is_special c) eqn:E.
  - specialize (Hlen eq_refl). cbn [List.length]. lia.
  - rewrite (escape_char_plain _ E). cbn [List.length]. lia.
Qed.

(** X3. A text is its own escaped form exactly when it holds none of the
    four characters; escaping never shortens a text. *)
Theorem escapeHtml_identity_iff (s : jsstring) :
  (escapeHtml s = s <-> List.filter is_special s = [])
  /\ (List.length s <= List.length (escapeHtml s))%nat.
Proof.
  pose proof (escapeHtml_length s) as Hlen. split; [split|lia].
  - intros H. rewrite H in Hlen.
    destruct (List.filter is_special s); [reflexivity | simpl in Hlen; lia].
  - clear Hlen. induction s as [|c s IH]; [reflexivity|].
    cbn [List.filter]. destruct (is_special c) eqn:E; [discriminate|].
    intros H.
    change (escapeHtml (c :: s)) with (escape_char c ++ escapeHtml s).
    rewrite (escape_char_plain _ E), (IH H). reflexivity.
Qed.

(** ** Rows, heights and pages *)

Lemma fold_extend_height (g : list Item.t) :
  forall cur : Line.t,
  Line.height (fold_left extend_line g cur) = fold_max_h g (Line.height cur).
Proof.
  induction g as [|it g IH]; intros cur; [reflexivity|].
  cbn [fold_left]. rewrite IH. reflexivity.
Qed.

Lemma fold_max_h_ge (g : list Item.t) :
  forall m : Q,
  m <= fold_max_h g m /\ (forall it, In it g -> item_h it <= fold_max_h g m).
Proof.
  induction g as [|it g IH]; intros m.
  - split; [apply Qle_refl | intros it []].
  - destruct (IH (Qmax m (item_h it))) as [Hm Hall].
    change (fold_max_h (it :: g) m) with (fold_max_h g (Qmax m (item_h it))).
    split.
    + eapply Qle_trans; [apply Q.le_max_l | exact Hm].
    + intros it' [<- | Hin]; [|now apply Hall].
      eapply Qle_trans; [apply Q.le_max_r | exact Hm].
Qed.

Lemma Qmax_one_of (a b : Q) : Qmax a b = a \/ Qmax a b = b.
Proof.
  unfold Qmax, GenericMinMax.gmax. destruct (a ?= b); tauto.
Qed.

Lemma fold_max_h_attained (g : list Item.t) :
  forall m : Q,
  fold_max_h g m = m \/ exists it, In it g /\ fold_max_h g m = item_h it.
Proof.
  induction g as [|it g IH]; intros m; [now left|].
  change (fold_max_h (it :: g) m) with (fold_max_h g (Qmax m (item_h it))).
  destruct (IH (Qmax m (item_h it))) as [H | (it' & Hin & H)].
  - rewrite H. destruct (Qmax_one_of m (item_h it)) as [E | E]; rewrite E.
    + now left.
    + right. exists it. split; [now left | reflexivity].
  - right. exists it'. split; [now right | exact H].
Qed.

(** X4. The height of a line is the largest height of the fragments of
    its row: no fragment of the row is taller, and one is exactly as
    tall. *)
Theorem line_height_is_row_max (i : nat) (items : list Item.t) (l : Line.t) :
  In l (page_lines i items) ->
  exists row,
    In row (rows items)
    /\ Line.text l = normalize (join_sp (map item_str (row_items row)))
    /\ (forall it, In it (row_items row) -> item_h it <= Line.height l)
    /\ (exists it, In it (row_items row) /\ Line.height l = item_h it).
Proof.
  intros Hl. apply page_lines_row in Hl.
  destruct Hl as (row & Hrow & -> & _). exists row.
  cbn [Line.with_text Line.text Line.height].
  split; [exact Hrow|]. split; [now rewrite row_line_text|].
  unfold row_line. rewrite fold_extend_height.
  cbn [start_line Line.height].
  destruct (fold_max_h_ge (snd row) (item_h (fst row))) as [Hfirst Hrest].
  split.
  - intros it [<- | Hin]; [exact Hfirst | now apply Hrest].
  - destruct (fold_max_h_attained (snd row) (item_h (fst row)))
      as [H | (it & Hin & H)].
    + exists (fst row). split; [now left | exact H].
    + exists it. split; [now right | exact H].
Qed.

Lemma line_height_is_row_max_witness :
  exists row,
    In row (rows [frag_hello; frag_world; frag_below])
    /\ Line.text hello_world =
       normalize (join_sp (map item_str (row_items row)))
    /\ (forall it, In it (row_items row) ->
        item_h it <= Line.height hello_world)
    /\ (exists it, In it (row_items row)
                   /\ Line.height hello_world = item_h it).
Proof.
  apply (line_height_is_row_max 1 [frag_hello; frag_world; frag_below]).
  left. reflexivity.
Defined.

Lemma page_lines_pageNum (i : nat) (items : list Item.t) (l : Line.t) :
  In l (page_lines i items) -> Line.pageNum l = i.
Proof.
  intros Hl. apply page_lines_row in Hl.
  destruct Hl as (row & _ & -> & _). cbn [Line.with_text Line.pageNum].
  unfold row_line.
  destruct (fold_extend_anchor (snd row) (start_line i (fst row)))
    as (_ & _ & Hp).
  exact Hp.
Qed.

Lemma strongly_sorted_app (a b : list Line.t) :
  StronglySorted page_le a -> StronglySorted page_le b ->
  (forall x y, In x a -> In y b -> page_le x y) ->
  StronglySorted page_le (a ++ b).
Proof.
  intros Ha Hb Hab. induction a as [|x a IH]; [exact Hb|].
  inversion Ha as [|? ? Ha' Hx]; subst. simpl. constructor.
  - apply IH; [exact Ha' | intros; apply Hab; [now right | assumption]].
  - apply List.Forall_app. split; [exact Hx|].
    apply List.Forall_forall. intros y Hy. apply Hab; [now left | exact Hy].
Qed.

Lemma strongly_sorted_same_page (i : nat) (a : list Line.t) :
  (forall x, In x a -> Line.pageNum x = i) -> StronglySorted page_le a.
Proof.
  induction a as [|x a IH]; intros H; constructor.
  - apply IH. intros y Hy. apply H. now right.
  - apply List.Forall_forall. intros y Hy. unfold page_le.
    rewrite (H x), (H y); [lia | now right | now left].
Qed.

Lemma extract_from_shape (pdf : Pdf) (n : nat) :
  forall (i0 : nat) (out res : list Line.t),
  extract_from pdf i0 n out = Normal res ->
  exists rest,
    res = out ++ rest
    /\ (forall l, In l rest -> (i0 <= Line.pageNum l < i0 + n)%nat)
    /\ StronglySorted page_le rest.
Proof.
  induction n as [|n IH]; intros i0 out res Hres; simpl in Hres.
  - injection Hres as <-. exists []. rewrite app_nil_r.
    split; [reflexivity|]. split; [intros l [] | constructor].
  - destruct (getPage pdf i0) as [page|e]; [|discriminate Hres].
    destruct (getTextContent page) as [items|e]; [|discriminate Hres].
    destruct (IH _ _ _ Hres) as (rest & -> & Hrange & Hsorted).
    exists (page_lines i0 items ++ rest). rewrite app_assoc.
    split; [reflexivity|]. split.
    + intros l Hl. apply in_app_or in Hl. destruct Hl as [Hl | Hl].
      * apply page_lines_pageNum in Hl. lia.
      * specialize (Hrange l Hl). lia.
    + apply strongly_sorted_app; [|exact Hsorted|].
      * apply (@strongly_sorted_same_page i0). intros x.
        apply page_lines_pageNum.
      * intros x y Hx Hy. apply page_lines_pageNum in Hx.
        specialize (Hrange y Hy). unfold page_le. lia.
Qed.

(** X5. In a corpus that was built, every line carries the number of an
    existing page, and the lines come page after page: no line is followed,
    anywhere later, by a line of an earlier page. *)
Theorem corpus_in_page_order (pdf : Pdf) (lines : list Line.t) :
  extractTextCorpus pdf = Normal lines ->
  (forall l, In l lines -> (1 <= Line.pageNum l <= numPages pdf)%nat)
  /\ StronglySorted
       (fun a b => (Line.pageNum a <= Line.pageNum b)%nat) lines.
Proof.
  intros H. apply extract_from_shape in H.
  destruct H as (rest & -> & Hrange & Hsorted). simpl. split.
  - intros l Hl. specialize (Hrange l Hl). lia.
  - exact Hsorted.
Qed.

Lemma extract_from_ok (pdf : Pdf) (pg : nat -> Page)
    (its : nat -> list Item.t) (n : nat) :
  forall (i0 : nat) (out : list Line.t),
  (forall i, (i0 <= i < i0 + n)%nat ->
     getPage pdf i = Normal (pg i) /\ getTextContent (pg i) = Normal (its i)) ->
  extract_from pdf i0 n out =
  Normal (out ++ flat_map (fun i => page_lines i (its i)) (seq i0 n)).
Proof.
  induction n as [|n IH]; intros i0 out H; simpl.
  - now rewrite app_nil_r.
  - destruct (H i0) as [Hp Ht]; [lia|]. rewrite Hp, Ht.
    rewrite IH; [now rewrite app_assoc|]. intros i Hi. apply H. lia.
Qed.

(** X6. When every page gives its text content, the corpus is the lines
    of page 1, then those of page 2, and so on to the last page, each page
    reconstructed on its own. *)
Theorem extract_concatenates_pages (pdf : Pdf) (pg : nat -> Page)
    (its : nat -> list Item.t) :
  (forall i, (1 <= i <= numPages pdf)%nat ->
     getPage pdf i = Normal (pg i) /\ getTextContent (pg i) = Normal (its i)) ->
  extractTextCorpus pdf =
  Normal (flat_map (fun i => page_lines i (its i)) (seq 1 (numPages pdf))).
Proof.
  intros H. unfold extractTextCorpus.
  rewrite (@extract_from_ok pdf pg its); [reflexivity|].
  intros i Hi. apply H. lia.
Qed.

Lemma extract_from_first_failure (pdf : Pdf) (k : nat) (e : exn) (n : nat) :
  forall (i0 : nat) (out : list Line.t),
  (i0 <= k < i0 + n)%nat ->
  (forall i, (i0 <= i < k)%nat ->
     exists page items,
       getPage pdf i = Normal page /\ getTextContent page = Normal items) ->
  (getPage pdf k = Throw e \/
   exists page, getPage pdf k = Normal page /\ getTextContent page = Throw e) ->
  extract_from pdf i0 n out = Throw e.
Proof.
  induction n as [|n IH]; intros i0 out Hk Hbefore Hfail; [lia|]. simpl.
  destruct (Nat.eq_dec i0 k) as [->|Hne].
  - destruct Hfail as [-> | (page & -> & ->)]; reflexivity.
  - destruct (Hbefore i0) as (page & items & -> & ->); [lia|].
    apply IH; [lia | | exact Hfail]. intros i Hi. apply Hbefore. lia.
Qed.

(** X7. The build stops at the first page that cannot be fetched or
    read, and throws the error of that page; the pages after it are not
    asked for. *)
Theorem extract_first_failure (pdf : Pdf) (k : nat) (e : exn) :
  (1 <= k <= numPages pdf)%nat ->
  (forall i, (1 <= i < k)%nat ->
     exists page items,
       getPage pdf i = Normal page /\ getTextContent page = Normal items) ->
  (getPage pdf k = Throw e \/
   exists page, getPage pdf k = Normal page /\ getTextContent page = Throw e) ->
  extractTextCorpus pdf = Throw e.
Proof.
  intros Hk Hbefore Hfail. unfold extractTextCorpus.
  apply (@extract_from_first_failure pdf k e); [lia | exact Hbefore | exact Hfail].
Qed.

Lemma corpus_in_page_order_witness :
  (forall l,
     In l (page_lines 1 [frag_hello; frag_world; frag_below]
           ++ page_lines 2 [fragment "Alpha Gamma" 72 650 80]) ->
     (1 <= Line.pageNum l <= numPages two_page_pdf)%nat)
  /\ StronglySorted
       (fun a b => (Line.pageNum a <= Line.pageNum b)%nat)
       (page_lines 1 [frag_hello; frag_world; frag_below]
        ++ page_lines 2 [fragment "Alpha Gamma" 72 650 80]).
Proof.
  apply (@corpus_in_page_order two_page_pdf). reflexivity.
Defined.

Lemma extract_concatenates_pages_witness :
  extractTextCorpus two_page_pdf =
  Normal (flat_map
            (fun i => page_lines i
               (match i with
                | 1%nat => [frag_hello; frag_world; frag_below]
                | _ => [fragment "Alpha Gamma" 72 650 80]
                end))
            (seq 1 (numPages two_page_pdf))).
Proof.
  apply (@extract_concatenates_pages two_page_pdf
           (fun i => match i with 1%nat => first_page | _ => second_page end)).
  intros i Hi. simpl in Hi.
  destruct i as [|[|[|i]]]; try lia; split; reflexivity.
Defined.

Lemma extract_first_failure_witness :
  extractTextCorpus torn_pdf = Throw "Invalid page request"%string.
Proof.
  apply (@extract_first_failure torn_pdf 2).
  - simpl. lia.
  - intros i Hi. assert (i = 1%nat) as -> by lia.
    exists first_page, [frag_hello; frag_world; frag_below].
    split; reflexivity.
  - left. reflexivity.
Defined.

(** ** Rendering a page *)

Lemma find_app_none (f : node -> bool) (l : list node) (x : node) :
  List.find f l = None -> f x = true -> List.find f (l ++ [x]) = Some x.
Proof.
  induction l as [|a l IH]; simpl; intros Hnone Hx.
  - now rewrite Hx.
  - destruct (f a); [discriminate Hnone | now apply IH].
Qed.

Lemma jsstring_eqb_refl (a : jsstring) : jsstring_eqb a a = true.
Proof. now apply jsstring_eqb_eq. Qed.

Section RenderFacts.
Context (libs : Libs).

(** What a render can do to the world, whatever its outcome. *)
Lemma renderPage_effect (n : nat) (w : World) :
  exists (c : completion unit) (w' : World),
    renderPage libs n w = (c, w')
    /\ session_kept w w'
    /\ console w' = console w
    /\ (pdfContainer w' = pdfContainer w \/
        exists wrapper,
          pdfContainer w' = pdfContainer w ++ [wrapper]
          /\ node_id wrapper = page_id n)
    /\ (renderedPages w' = renderedPages w \/
        renderedPages w' = {[n]} ∪ renderedPages w).
Proof.
  unfold renderPage, session_kept.
  cbv [mbind M_bind gets modify await throw mret M_ret].
  destruct (getElementById (page_id n) w);
    [eexists _, _; split; [reflexivity|]; cbn; tauto|].
  destruct (gPdf w) as [pdf|] eqn:Hdoc;
    [|eexists _, _; split; [reflexivity|]; cbn; tauto].
  destruct (getPage pdf n) as [page|e];
    [|eexists _, _; split; [reflexivity|]; cbn; tauto].
  destruct (getTextContent page) as [items|e];
    [|eexists _, _; split; [reflexivity|];
      cbn [gPdf corpus statusEl resultsPanel pageCountDisplay searchBox
           thresholdInput alerts timers console pdfContainer renderedPages
           set_pdfContainer];
      repeat split; try assumption; try (now left);
      right; eexists; split; reflexivity].
  destruct (renderTextLayer libs items (getViewport page (3 # 2)))
    as [spans|e];
    destruct (render page (getViewport page (3 # 2))) as [[]|e'];
    (eexists _, _; split; [reflexivity|];
     cbn [gPdf corpus statusEl resultsPanel pageCountDisplay searchBox
          thresholdInput alerts timers console pdfContainer renderedPages
          set_pdfContainer set_renderedPages];
     rewrite ?removelast_last;
     repeat split; try assumption; try (now left); try (now right);
     right; eexists; split; reflexivity).
Qed.

(** X8. Asking for a page never throws, whatever the decoder or the
    renderer do: a failure is logged.  It leaves the document, the corpus,
    the status, the results, the inputs, the alerts and the timers as they
    were, keeps the pages already shown, and adds at most one page and at
    most one line to the console. *)
Theorem ensurePageRendered_contained (n : nat) (w : World) :
  exists w' : World,
    ensurePageRendered libs n w = (Normal tt, w')
    /\ session_kept w w'
    /\ (pdfContainer w' = pdfContainer w \/
        exists wrapper,
          pdfContainer w' = pdfContainer w ++ [wrapper]
          /\ node_id wrapper = page_id n)
    /\ (renderedPages w' = renderedPages w \/
        renderedPages w' = {[n]} ∪ renderedPages w)
    /\ (console w' = console w \/
        exists e, console w' = console w ++ [("Render error"%string, e)]).
Proof.
  unfold ensurePageRendered.
  cbv [mbind M_bind gets mret M_ret try_catch console_log modify].
  assert (Hsame : session_kept w w) by (unfold session_kept; tauto).
  destruct (gPdf w) eqn:Hdoc; [|exists w; tauto].
  destruct (getElementById (page_id n) w); [exists w; tauto|].
  destruct (renderPage_effect n w)
    as (c & w' & -> & Hkept & Hcons & Hpages & Hset).
  destruct c as [[]|e].
  - exists w'. rewrite Hcons. tauto.
  - eexists. split; [reflexivity|].
    unfold session_kept in *.
    cbn [gPdf corpus statusEl resultsPanel pageCountDisplay searchBox
         thresholdInput alerts timers console pdfContainer renderedPages
         set_console].
    rewrite Hcons. split; [exact Hkept|]. split; [exact Hpages|].
    split; [exact Hset|]. right. now exists e.
Qed.
End RenderFacts.

Section RenderOnce.
Context (libs : Libs).

Lemma getElementById_appended (n : nat) (w : World) (wrapper : node) :
  getElementById (page_id n) w = None ->
  node_id wrapper = page_id n ->
  List.find (fun k => jsstring_eqb (node_id k) (page_id n))
            (pdfContainer w ++ [wrapper]) = Some wrapper.
Proof.
  intros Hnone Hid. apply find_app_none; [exact Hnone|].
  rewrite Hid. apply jsstring_eqb_refl.
Qed.

(** X9. A page that is not shown yet and renders well gets its wrapper
    at the end of the container, with the spans of its text layer, and
    enters the set of rendered pages; asking for it again does nothing. *)
Theorem page_rendered_once (n : nat) (w : World) (pdf : Pdf) (page : Page)
    (items : list Item.t) (spans : list node) :
  gPdf w = Some pdf ->
  getElementById (page_id n) w = None ->
  getPage pdf n = Normal page ->
  getTextContent page = Normal items ->
  renderTextLayer libs items (getViewport page (3 # 2)) = Normal spans ->
  render page (getViewport page (3 # 2)) = Normal tt ->
  exists w' : World,
    ensurePageRendered libs n w = (Normal tt, w')
    /\ pdfContainer w' =
       pdfContainer w ++ [page_wrapper n (getViewport page (3 # 2)) spans]
    /\ renderedPages w' = {[n]} ∪ renderedPages w
    /\ console w' = console w
    /\ ensurePageRendered libs n w' = (Normal tt, w').
Proof.
  intros Hdoc Hnone Hpage Htext Hlayer Hrender.
  eexists. split.
  - unfold ensurePageRendered, renderPage.
    cbv [mbind M_bind gets mret M_ret try_catch console_log modify await
         throw].
    repeat (progress (rewrite ?Hdoc, ?Hnone, ?Hpage, ?Htext, ?Hlayer,
                        ?Hrender; cbv beta iota)).
    reflexivity.
  - cbn [pdfContainer renderedPages console set_pdfContainer
         set_renderedPages].
    rewrite removelast_last. repeat split.
    unfold ensurePageRendered.
    cbv [mbind M_bind gets mret M_ret].
    cbn [gPdf set_renderedPages set_pdfContainer]. rewrite Hdoc.
    unfold getElementById.
    cbn [pdfContainer set_renderedPages set_pdfContainer].
    rewrite ?removelast_last.
    rewrite (@getElementById_appended n w);
      [reflexivity | exact Hnone | reflexivity].
Qed.

End RenderOnce.

Lemma page_rendered_once_witness :
  exists w' : World,
    ensurePageRendered (libs_for two_page_pdf) 1
      (world_with (Some two_page_pdf) "alpha") = (Normal tt, w')
    /\ pdfContainer w' =
       pdfContainer (world_with (Some two_page_pdf) "alpha")
       ++ [page_wrapper 1 (getViewport first_page (3 # 2)) []]
    /\ renderedPages w' =
       {[1%nat]} ∪ renderedPages (world_with (Some two_page_pdf) "alpha")
    /\ console w' = console (world_with (Some two_page_pdf) "alpha")
    /\ ensurePageRendered (libs_for two_page_pdf) 1 w' = (Normal tt, w').
Proof.
  apply (@page_rendered_once (libs_for two_page_pdf) 1
           (world_with (Some two_page_pdf) "alpha") two_page_pdf first_page
           [frag_hello; frag_world; frag_below] []);
    reflexivity.
Defined.

Section RenderFailure.
Context (libs : Libs).

(** X10. When the text layer of a page is built but its canvas cannot be
    painted, the failure is logged and the page is not counted as rendered,
    but its wrapper stays in the container; since the presence of the
    wrapper is what is tested, asking for the page again does nothing: the
    page is not retried. *)
Theorem failed_render_not_retried (n : nat) (w : World) (pdf : Pdf)
    (page : Page) (items : list Item.t) (spans : list node) (e : exn) :
  gPdf w = Some pdf ->
  getElementById (page_id n) w = None ->
  getPage pdf n = Normal page ->
  getTextContent page = Normal items ->
  renderTextLayer libs items (getViewport page (3 # 2)) = Normal spans ->
  render page (getViewport page (3 # 2)) = Throw e ->
  exists w' : World,
    ensurePageRendered libs n w = (Normal tt, w')
    /\ pdfContainer w' =
       pdfContainer w ++ [page_wrapper n (getViewport page (3 # 2)) spans]
    /\ renderedPages w' = renderedPages w
    /\ console w' = console w ++ [("Render error"%string, e)]
    /\ ensurePageRendered libs n w' = (Normal tt, w').
Proof.
  intros Hdoc Hnone Hpage Htext Hlayer Hrender.
  eexists. split.
  - unfold ensurePageRendered, renderPage.
    cbv [mbind M_bind gets mret M_ret try_catch console_log modify await
         throw].
    repeat (progress (rewrite ?Hdoc, ?Hnone, ?Hpage, ?Htext, ?Hlayer,
                        ?Hrender; cbv beta iota)).
    reflexivity.
  - cbn [pdfContainer renderedPages console set_pdfContainer set_console].
    rewrite removelast_last. repeat split.
    unfold ensurePageRendered.
    cbv [mbind M_bind gets mret M_ret].
    cbn [gPdf set_console set_pdfContainer]. rewrite Hdoc.
    unfold getElementById.
    cbn [pdfContainer set_console set_pdfContainer].
    rewrite ?removelast_last.
    rewrite (@getElementById_appended n w);
      [reflexivity | exact Hnone | reflexivity].
Qed.

(** What a request for a page leaves of the session and of the pages. *)
Lemma ensurePageRendered_session (n : nat) (w : World) :
  exists w' : World,
    ensurePageRendered libs n w = (Normal tt, w')
    /\ session_kept w w'
    /\ (pdfContainer w' = pdfContainer w \/
        exists wrapper,
          pdfContainer w' = pdfContainer w ++ [wrapper]
          /\ node_id wrapper = page_id n).
Proof.
  unfold ensurePageRendered.
  cbv [mbind M_bind gets mret M_ret try_catch console_log modify].
  assert (Hsame : session_kept w w) by (unfold session_kept; tauto).
  destruct (gPdf w); [|exists w; tauto].
  destruct (getElementById (page_id n) w); [exists w; tauto|].
  destruct (renderPage_effect libs n w) as (c & w' & -> & Hkept & _ & Hp & _).
  destruct c as [[]|e]; [exists w'; tauto|].
  eexists. split; [reflexivity|]. split; [exact Hkept | exact Hp].
Qed.
End RenderFailure.

Lemma failed_render_not_retried_witness :
  exists w' : World,
    ensurePageRendered (libs_for unpaintable_pdf) 1
      (world_with (Some unpaintable_pdf) "alpha") = (Normal tt, w')
    /\ pdfContainer w' =
       pdfContainer (world_with (Some unpaintable_pdf) "alpha")
       ++ [page_wrapper 1 (getViewport unpaintable_page (3 # 2)) []]
    /\ renderedPages w' =
       renderedPages (world_with (Some unpaintable_pdf) "alpha")
    /\ console w' =
       console (world_with (Some unpaintable_pdf) "alpha")
       ++ [("Render error"%string, "canvas failure"%string)]
    /\ ensurePageRendered (libs_for unpaintable_pdf) 1 w' = (Normal tt, w').
Proof.
  apply (@failed_render_not_retried (libs_for unpaintable_pdf) 1
           (world_with (Some unpaintable_pdf) "alpha") unpaintable_pdf
           unpaintable_page [frag_hello] [] "canvas failure"%string);
    reflexivity.
Defined.

(** ** Loading, again *)

Section LoadFacts.
Context (libs : Libs).

(** X11. A file that decodes and whose pages all give their text ends
    loaded: the document is kept, the corpus is what the build returned,
    the status tells the number of lines, the former results and pages are
    gone (at most the first page of the new document is shown), and
    nothing is thrown, whatever the preview render does. *)
Theorem load_success (f : File) (data : list N) (pdf : Pdf)
    (lines : list Line.t) (w : World) :
  file_type f = lit "application/pdf" ->
  arrayBuffer f = Normal data ->
  getDocument libs data = Normal pdf ->
  extractTextCorpus pdf = Normal lines ->
  exists w' : World,
    loadPdfFile libs (Some f) w = (Normal tt, w')
    /\ gPdf w' = Some pdf
    /\ corpus w' = lines
    /\ statusEl w' =
       lit "Extracted " ++ dec (List.length lines)
       ++ lit " lines. Ready to search."
    /\ pageCountDisplay w' = lit "pages: " ++ dec (numPages pdf)
    /\ resultsPanel w' = PanelHtml (muted "No results yet.")
    /\ (pdfContainer w' = [] \/
        exists wrapper, pdfContainer w' = [wrapper]
                        /\ node_id wrapper = page_id 1)
    /\ alerts w' = alerts w
    /\ searchBox w' = searchBox w.
Proof.
  intros Htype Hbuf Hdoc Hlines.
  unfold loadPdfFile. apply jsstring_eqb_eq in Htype. rewrite Htype.
  cbn [negb].
  cbv [mbind M_bind clearAll setStatus modify await try_catch load_body
       console_log].
  rewrite Hbuf, Hdoc, Hlines.
  match goal with
  | |- context [ensurePageRendered libs 1 ?W] =>
      destruct (ensurePageRendered_session libs 1 W)
        as (w' & -> & Hkept & Hpages)
  end.
  exists w'. split; [reflexivity|].
  unfold session_kept in Hkept.
  destruct Hkept as (H1 & H2 & H3 & H4 & H5 & H6 & _ & H8 & _).
  rewrite H1, H2, H3, H4, H5, H6, H8.
  repeat (split; [reflexivity|]).
  cbn [pdfContainer set_statusEl set_corpus set_pageCountDisplay set_gPdf
       set_resultsPanel set_pdfContainer set_renderedPages app] in Hpages.
  split; [exact Hpages|]. split; reflexivity.
Qed.

(** X12. When the bytes of the file cannot be read, [loadPdfFile] itself
    throws: the rejection is outside the [try].  The session has been
    cleared by then, nothing is logged, and the status still says that the
    file is being read. *)
Theorem unreadable_file_throws (f : File) (e : exn) (w : World) :
  file_type f = lit "application/pdf" ->
  arrayBuffer f = Throw e ->
  exists w' : World,
    loadPdfFile libs (Some f) w = (Throw e, w')
    /\ gPdf w' = None /\ corpus w' = [] /\ renderedPages w' = ∅
    /\ pdfContainer w' = []
    /\ statusEl w' = lit "Reading " ++ file_name f ++ lit "..."
    /\ console w' = console w
    /\ alerts w' = alerts w.
Proof.
  intros Htype Hbuf. eexists. split.
  - unfold loadPdfFile. apply jsstring_eqb_eq in Htype. rewrite Htype.
    cbn [negb]. cbv [mbind M_bind clearAll setStatus modify await].
    rewrite Hbuf. reflexivity.
  - repeat split; reflexivity.
Qed.

(** [clearAll] empties the session and the page, says so in the status,
    and keeps what the user typed, the alerts, the console and the pending
    timers. *)
Lemma clearAll_resets (w : World) :
  exists w' : World,
    clearAll w = (Normal tt, w')
    /\ gPdf w' = None /\ corpus w' = [] /\ renderedPages w' = ∅
    /\ pdfContainer w' = []
    /\ resultsPanel w' = PanelHtml (muted "No results yet.")
    /\ statusEl w' = lit "No PDF loaded."
    /\ pageCountDisplay w' = lit "pages: ?"
    /\ searchBox w' = searchBox w /\ thresholdInput w' = thresholdInput w
    /\ alerts w' = alerts w /\ console w' = console w
    /\ timers w' = timers w.
Proof.
  eexists. split; [reflexivity|]. repeat split; reflexivity.
Qed.

(** X13. Loading a PDF file forgets the session before it: whatever
    document, corpus, pages, results and status were there, the load ends
    in the same world with the same outcome, as long as the query, the
    threshold, the alerts, the console and the timers were the same. *)
Theorem reload_forgets_previous_session (f : File) (w1 w2 : World) :
  file_type f = lit "application/pdf" ->
  searchBox w1 = searchBox w2 ->
  thresholdInput w1 = thresholdInput w2 ->
  alerts w1 = alerts w2 ->
  console w1 = console w2 ->
  timers w1 = timers w2 ->
  loadPdfFile libs (Some f) w1 = loadPdfFile libs (Some f) w2.
Proof.
  intros Htype H1 H2 H3 H4 H5.
  unfold loadPdfFile. apply jsstring_eqb_eq in Htype. rewrite Htype.
  cbn [negb].
  destruct w1, w2. cbn in H1, H2, H3, H4, H5. subst.
  cbv [mbind M_bind clearAll setStatus modify]. reflexivity.
Qed.

(** X14. Without a document, a search only alerts, whatever the query: no
    status, no result and no other part of the world changes. *)
Theorem search_needs_document (w : World) :
  gPdf w = None ->
  runSearch libs w =
  (Normal tt, set_alerts (alerts w ++ [lit "Please load a PDF first."]) w).
Proof.
  intros Hdoc. unfold runSearch. cbv [mbind M_bind gets alert modify].
  rewrite Hdoc. reflexivity.
Qed.

Lemma trim_blank (s : jsstring) : forallb is_space s = true -> trim s = [].
Proof.
  intros H. unfold trim.
  assert (Hs : trimStart s = []).
  { induction s as [|c s IH]; [reflexivity|]. simpl in *.
    apply andb_prop in H. destruct H as [Hc Hs]. rewrite Hc. now apply IH. }
  rewrite Hs. reflexivity.
Qed.

(** X15. With a document, a query of white space only (or empty) is
    refused with an alert and nothing else changes: the engine is not
    asked and the results shown stay. *)
Theorem blank_query_refused (w : World) (pdf : Pdf) :
  gPdf w = Some pdf ->
  forallb is_space (searchBox w) = true ->
  runSearch libs w =
  (Normal tt, set_alerts (alerts w ++ [lit "Type a search phrase."]) w).
Proof.
  intros Hdoc Hblank. unfold runSearch. cbv [mbind M_bind gets alert modify].
  rewrite Hdoc, (trim_blank _ Hblank). reflexivity.
Qed.
End LoadFacts.

Lemma load_success_witness :
  exists w' : World,
    loadPdfFile (libs_for two_page_pdf) (Some (sample_file "application/pdf"))
      search_world = (Normal tt, w')
    /\ gPdf w' = Some two_page_pdf
    /\ corpus w' =
       page_lines 1 [frag_hello; frag_world; frag_below]
       ++ page_lines 2 [fragment "Alpha Gamma" 72 650 80]
    /\ statusEl w' =
       lit "Extracted "
       ++ dec (List.length
                 (page_lines 1 [frag_hello; frag_world; frag_below]
                  ++ page_lines 2 [fragment "Alpha Gamma" 72 650 80]))
       ++ lit " lines. Ready to search."
    /\ pageCountDisplay w' = lit "pages: " ++ dec (numPages two_page_pdf)
    /\ resultsPanel w' = PanelHtml (muted "No results yet.")
    /\ (pdfContainer w' = [] \/
        exists wrapper, pdfContainer w' = [wrapper]
                        /\ node_id wrapper = page_id 1)
    /\ alerts w' = alerts search_world
    /\ searchBox w' = searchBox search_world.
Proof.
  apply (@load_success (libs_for two_page_pdf)
           (sample_file "application/pdf") [37; 80; 68; 70]%N two_page_pdf);
    reflexivity.
Defined.

Lemma unreadable_file_throws_witness :
  exists w' : World,
    loadPdfFile sample_libs (Some unreadable_file) search_world
      = (Throw "NotReadableError"%string, w')
    /\ gPdf w' = None /\ corpus w' = [] /\ renderedPages w' = ∅
    /\ pdfContainer w' = []
    /\ statusEl w' = lit "Reading " ++ file_name unreadable_file ++ lit "..."
    /\ console w' = console search_world
    /\ alerts w' = alerts search_world.
Proof.
  apply (@unreadable_file_throws sample_libs unreadable_file
           "NotReadableError"%string search_world);
    reflexivity.
Defined.

Lemma failed_decode_leaves_empty_witness :
  exists w' : World,
    loadPdfFile rejecting_libs (Some (sample_file "application/pdf"))
      search_world = (Normal tt, w')
    /\ gPdf w' = None /\ corpus w' = [] /\ renderedPages w' = ∅
    /\ pdfContainer w' = [] /\ pageCountDisplay w' = lit "pages: ?"
    /\ statusEl w' = lit "Error loading PDF. See console.".
Proof.
  apply (@failed_decode_leaves_empty rejecting_libs
           (sample_file "application/pdf") [37; 80; 68; 70]%N
           "Invalid PDF structure"%string search_world);
    reflexivity.
Defined.

Lemma search_needs_document_witness :
  runSearch sample_libs (world_with None "alpha") =
  (Normal tt,
   set_alerts (alerts (world_with None "alpha")
               ++ [lit "Please load a PDF first."])
              (world_with None "alpha")).
Proof.
  apply (@search_needs_document sample_libs (world_with None "alpha")).
  reflexivity.
Defined.

Lemma blank_query_refused_witness :
  runSearch sample_libs (world_with (Some two_page_pdf) "   ") =
  (Normal tt,
   set_alerts (alerts (world_with (Some two_page_pdf) "   ")
               ++ [lit "Type a search phrase."])
              (world_with (Some two_page_pdf) "   ")).
Proof.
  apply (@blank_query_refused sample_libs
           (world_with (Some two_page_pdf) "   ") two_page_pdf);
    reflexivity.
Defined.

(** ** The list of results *)

Section ResultFacts.
Context (libs : Libs).

Lemma result_entries_nth (matches : list Result) :
  forall (idx k : nat) (m : Result),
  nth_error matches k = Some m ->
  nth_error (result_entries libs idx matches) k =
  Some {| label := result_label libs (idx + k) m; target := item m |}.
Proof.
  induction matches as [|m0 r IH]; intros idx k m H.
  - destruct k; discriminate H.
  - destruct k as [|k]; simpl in *.
    + injection H as ->. now rewrite Nat.add_0_r.
    + rewrite (IH (S idx) k m H).
      replace (idx + S k)%nat with (S idx + k)%nat by lia. reflexivity.
Qed.

Lemma result_entries_length (matches : list Result) :
  forall idx : nat,
  List.length (result_entries libs idx matches) = List.length matches.
Proof.
  induction matches as [|m r IH]; intros idx; [reflexivity|].
  simpl. now rewrite IH.
Qed.

Lemma escapeHtml_clean (s : jsstring) (d : jschar) :
  d = LT \/ d = GT \/ d = QUOT -> ~ In d (escapeHtml s).
Proof.
  intros Hd Hin. unfold escapeHtml in Hin. apply in_flat_map in Hin.
  destruct Hin as (c & _ & Hc). exact (escape_char_clean c Hd Hc).
Qed.

(** X17. The list shown has one entry for each match, in the order of the
    matches and numbered from 1.  The label of an entry is its number, the
    page of its line, the score of the match with three decimals when it
    has one, a dash, and the escaped preview of the line; the preview is
    the text of the line, or its first 157 units and an ellipsis when the
    text has more than 160, so that it never brings an angle bracket or a
    double quote into the markup.  Without a match the panel says so. *)
Theorem renderResults_entries (matches : list Result) (w : World) :
  exists panel : Panel,
    renderResults libs matches w = (Normal tt, set_resultsPanel panel w)
    /\ match matches with
       | [] => panel = PanelHtml (muted "No matches.")
       | _ :: _ =>
           exists entries : list Entry,
             panel = PanelList entries
             /\ List.length entries = List.length matches
             /\ forall (k : nat) (m : Result),
                  nth_error matches k = Some m ->
                  let text := Line.text (item m) in
                  let preview :=
                    if (160 <? List.length text)%nat
                    then firstn 157 text ++ [ELLIPSIS] else text in
                  exists e : Entry,
                    nth_error entries k = Some e
                    /\ target e = item m
                    /\ label e =
                       dec (k + 1) ++ lit ". Page "
                       ++ dec (Line.pageNum (item m))
                       ++ match score m with
                          | Some sc =>
                              lit " (score " ++ toFixed libs sc 3 ++ lit ")"
                          | None => []
                          end
                       ++ lit " " ++ EM_DASH :: lit " "
                       ++ escapeHtml preview
                    /\ ((160 < List.length text)%nat ->
                        preview = firstn 157 text ++ [ELLIPSIS]
                        /\ List.length preview = 158%nat)
                    /\ ((List.length text <= 160)%nat -> preview = text)
                    /\ ~ In LT (escapeHtml preview)
                    /\ ~ In GT (escapeHtml preview)
                    /\ ~ In QUOT (escapeHtml preview)
       end.
Proof.
  destruct matches as [|m0 r].
  - eexists. split; reflexivity.
  - eexists. split; [reflexivity|].
    exists (result_entries libs 0 (m0 :: r)). split; [reflexivity|].
    split; [apply result_entries_length|].
    intros k m Hk text preview. rewrite (result_entries_nth _ 0 _ Hk).
    exists {| label := result_label libs (0 + k) m; target := item m |}.
    split; [reflexivity|]. split; [reflexivity|]. split.
    { cbn [label]. unfold result_label. fold text. fold preview.
      rewrite Nat.add_0_l. reflexivity. }
    split; [|split].
    + intros Hlong. apply Nat.ltb_lt in Hlong. unfold preview.
      rewrite Hlong. split; [reflexivity|].
      apply Nat.ltb_lt in Hlong.
      rewrite length_app, length_firstn. cbn [List.length]. lia.
    + intros Hshort. apply Nat.ltb_ge in Hshort. unfold preview.
      rewrite Hshort. reflexivity.
    + repeat split; apply escapeHtml_clean; tauto.
Qed.

(** X20. Among ASCII texts, where [toLowerCase] is the lower case of
    ASCII, a phrase that stands in a line, as typed or with other letter
    case, is never missed: the search has a hit, and if the fuzzy pass has
    none the line itself is among the hits, with the score 1. *)
Theorem verbatim_phrase_found (lines : list Line.t) (threshold : option Q)
    (q : jsstring) (l : Line.t) :
  (forall s : jsstring,
     forallb is_ascii s = true -> toLowerCase libs s = map upper_to_lower s) ->
  In l lines ->
  forallb is_ascii (Line.text l) = true ->
  forallb is_ascii q = true ->
  (exists pre post,
     map upper_to_lower (Line.text l) = pre ++ map upper_to_lower q ++ post) ->
  search_results libs lines threshold q <> []
  /\ (fuse_search libs lines
        {| keys := ["text"%string]; threshold := threshold;
           includeScore := true; ignoreLocation := true;
           findAllMatches := true;
           minMatchCharLength := Nat.min 3 (List.length q);
           distance := 1000%N |} q = [] ->
      In {| item := l; score := Some 1 |}
         (search_results libs lines threshold q)).
Proof.
  intros Hlower Hin Hl Hq (pre & post & Htext).
  assert (Hhit : In {| item := l; score := Some 1 |}
                    (substring_fallback libs lines q)).
  { rewrite fallback_map_filter.
    apply (in_map (fun l0 => {| item := l0; score := Some 1 |})).
    apply filter_In.
    split; [exact Hin|]. apply includes_spec.
    exists pre, post. rewrite (Hlower _ Hl), (Hlower _ Hq). exact Htext. }
  unfold search_results.
  destruct (fuse_search libs lines _ q) as [|r rs].
  - split; [|intros _; exact Hhit].
    intros Hnil. rewrite Hnil in Hhit. exact Hhit.
  - split; [discriminate | intros H; discriminate H].
Qed.
End ResultFacts.

Lemma verbatim_phrase_found_witness :
  search_results unicode_libs [sample_line "Quarterly Revenue Report" 1]
                 (Some 0) (lit "REVENUE") <> []
  /\ (fuse_search unicode_libs [sample_line "Quarterly Revenue Report" 1]
        {| keys := ["text"%string]; threshold := Some 0;
           includeScore := true; ignoreLocation := true;
           findAllMatches := true;
           minMatchCharLength := Nat.min 3 (List.length (lit "REVENUE"));
           distance := 1000%N |} (lit "REVENUE") = [] ->
      In {| item := sample_line "Quarterly Revenue Report" 1;
            score := Some 1 |}
         (search_results unicode_libs
            [sample_line "Quarterly Revenue Report" 1] (Some 0)
            (lit "REVENUE"))).
Proof.
  apply (@verbatim_phrase_found unicode_libs
           [sample_line "Quarterly Revenue Report" 1] (Some 0)
           (lit "REVENUE") (sample_line "Quarterly Revenue Report" 1)).
  - exact js_toLowerCase_ascii.
  - left. reflexivity.
  - reflexivity.
  - reflexivity.
  - exists (lit "quarterly "), (lit " report"). reflexivity.
Defined.

(** ** One highlight at a time *)

Lemma count_highlights_children (t : string) (i : jsstring)
    (c : list string) (s : list (string * Q)) (ch : list node) :
  count_highlights (Element t i c s ch) = count_highlights_in ch.
Proof.
  cbn [count_highlights]. induction ch as [|k r IH]; [reflexivity|].
  cbn [count_highlights_in]. now rewrite IH.
Qed.

Lemma remove_highlights_children (t : string) (i : jsstring)
    (c : list string) (s : list (string * Q)) (ch : list node) :
  remove_highlights (Element t i c s ch) =
  Element t i c s (remove_highlights_in ch).
Proof.
  cbn [remove_highlights]. f_equal.
Qed.

Lemma count_highlights_in_app (a b : list node) :
  count_highlights_in (a ++ b) =
  (count_highlights_in a + count_highlights_in b)%nat.
Proof.
  induction a as [|k r IH]; [reflexivity|]. simpl. rewrite IH. lia.
Qed.

Lemma remove_highlights_in_snoc (l : list node) (hl : node) :
  has_class "highlight" hl = true ->
  remove_highlights_in (l ++ [hl]) = remove_highlights_in l.
Proof.
  intros H. induction l as [|k r IH]; simpl.
  - now rewrite H.
  - rewrite IH. reflexivity.
Qed.

Lemma has_class_remove_highlights (cls : string) (n : node) :
  has_class cls (remove_highlights n) = has_class cls n.
Proof. destruct n. reflexivity. Qed.

Lemma node_id_remove_highlights (n : node) :
  node_id (remove_highlights n) = node_id n.
Proof. destruct n. reflexivity. Qed.

Lemma node_id_appendChild (n child : node) :
  node_id (appendChild n child) = node_id n.
Proof. destruct n. reflexivity. Qed.

Lemma remove_highlights_none (n : node) :
  count_highlights n = O -> remove_highlights n = n.
Proof.
  induction n as [t i c s ch IH] using node_ind_children.
  rewrite count_highlights_children, remove_highlights_children.
  intros H. f_equal. induction ch as [|k r IHr]; [reflexivity|].
  inversion IH as [|? ? Hk Hr]; subst. cbn [count_highlights_in] in H.
  cbn [remove_highlights_in].
  destruct (has_class "highlight" k); [simpl in H; lia|].
  rewrite Hk by lia. rewrite (IHr Hr) by lia. reflexivity.
Qed.

(** X19. Removing the highlights leaves a subtree without highlight
    exactly as it was, so the canvas and the text layer of a page are
    never touched; and removing twice is removing once. *)
Theorem remove_highlights_spares (n : node) :
  (count_highlights n = O -> remove_highlights n = n)
  /\ remove_highlights (remove_highlights n) = remove_highlights n.
Proof.
  split; [apply remove_highlights_none|].
  apply remove_highlights_none, count_remove_highlights.
Qed.

Lemma count_after_highlight (wrapper : node) (rect : Rect4) :
  count_highlights
    (appendChild (remove_highlights wrapper) (highlight_element rect))
  = 1%nat.
Proof.
  pose proof (count_remove_highlights wrapper) as H0.
  destruct wrapper as [t i c s ch].
  rewrite remove_highlights_children in *.
  rewrite count_highlights_children in H0.
  cbn [appendChild]. rewrite count_highlights_children.
  rewrite count_highlights_in_app, H0.
  destruct rect as [[[r0 r1] r2] r3]. reflexivity.
Qed.

Lemma remove_after_highlight (wrapper : node) (rect : Rect4) :
  remove_highlights
    (appendChild (remove_highlights wrapper) (highlight_element rect))
  = remove_highlights wrapper.
Proof.
  pose proof (@remove_highlights_none _ (count_remove_highlights wrapper))
    as H.
  destruct wrapper as [t i c s ch].
  rewrite remove_highlights_children in *.
  cbn [appendChild]. rewrite remove_highlights_children.
  rewrite remove_highlights_in_snoc by apply highlight_element_class.
  rewrite remove_highlights_children in H. exact H.
Qed.

(** X18. After a highlight that could be placed, the page shows exactly
    one highlight and one more timer of 6000 ms is pending; a second
    highlight on the same page replaces the first: the page is what it
    would be had the first never been placed, while both timers remain. *)
Theorem highlight_exclusive (wrapper : node) (vp vp2 : Viewport)
    (x y width height x2 y2 width2 height2 : Q) (rect rect2 : Rect4)
    (w : World) :
  convertToViewportRectangle vp (x, y, x + width, y + height) = Normal rect ->
  convertToViewportRectangle vp2 (x2, y2, x2 + width2, y2 + height2)
    = Normal rect2 ->
  exists (page1 page2 : node) (w1 w2 : World),
    highlightMatch wrapper vp
      {| box_x := Some x; box_y := Some y;
         box_width := Some width; box_height := Some height |} w
      = (Normal page1, w1)
    /\ count_highlights page1 = 1%nat
    /\ timers w1 = timers w ++ [(6000%N, highlight_element rect)]
    /\ highlightMatch page1 vp2
         {| box_x := Some x2; box_y := Some y2;
            box_width := Some width2; box_height := Some height2 |} w1
       = (Normal page2, w2)
    /\ page2 =
       appendChild (remove_highlights wrapper) (highlight_element rect2)
    /\ count_highlights page2 = 1%nat
    /\ timers w2 =
       timers w ++ [(6000%N, highlight_element rect);
                    (6000%N, highlight_element rect2)]
    /\ console w2 = console w.
Proof.
  intros Hconv Hconv2.
  exists (appendChild (remove_highlights wrapper) (highlight_element rect)),
         (appendChild (remove_highlights wrapper) (highlight_element rect2)).
  eexists. eexists. split.
  { unfold highlightMatch.
    cbv [mbind M_bind try_catch await console_log modify mret M_ret
         or_default box_x box_y box_width box_height].
    rewrite Hconv. reflexivity. }
  split; [apply count_after_highlight|]. split; [reflexivity|]. split.
  { unfold highlightMatch.
    cbv [mbind M_bind try_catch await console_log modify mret M_ret
         or_default box_x box_y box_width box_height].
    rewrite Hconv2, remove_after_highlight. reflexivity. }
  split; [reflexivity|]. split; [apply count_after_highlight|].
  cbn [timers console set_timers]. rewrite <- app_assoc.
  split; reflexivity.
Qed.

Lemma highlight_exclusive_witness :
  exists (page1 page2 : node) (w1 w2 : World),
    highlightMatch highlighted_page (plain_viewport (3 # 2))
      {| box_x := Some 72; box_y := Some 700;
         box_width := Some 78; box_height := Some 12 |} empty_world
      = (Normal page1, w1)
    /\ count_highlights page1 = 1%nat
    /\ timers w1 =
       timers empty_world
       ++ [(6000%N, highlight_element (72, 700, 72 + 78, 700 + 12))]
    /\ highlightMatch page1 (plain_viewport (3 # 2))
         {| box_x := Some 72; box_y := Some 650;
            box_width := Some 80; box_height := Some 12 |} w1
       = (Normal page2, w2)
    /\ page2 =
       appendChild (remove_highlights highlighted_page)
         (highlight_element (72, 650, 72 + 80, 650 + 12))
    /\ count_highlights page2 = 1%nat
    /\ timers w2 =
       timers empty_world
       ++ [(6000%N, highlight_element (72, 700, 72 + 78, 700 + 12));
           (6000%N, highlight_element (72, 650, 72 + 80, 650 + 12))]
    /\ console w2 = console empty_world.
Proof.
  apply (@highlight_exclusive highlighted_page (plain_viewport (3 # 2))
           (plain_viewport (3 # 2)) 72 700 78 12 72 650 80 12);
    reflexivity.
Defined.

(** ** Clicking a result *)

Lemma find_replace_first (ident : jsstring) (new old : node)
    (l : list node) :
  List.find (fun n => jsstring_eqb (node_id n) ident) l = Some old ->
  node_id new = ident ->
  List.find (fun n => jsstring_eqb (node_id n) ident)
            (replace_first ident new l) = Some new.
Proof.
  intros Hfind Hid. induction l as [|a r IH]; [discriminate Hfind|].
  simpl in *. destruct (jsstring_eqb (node_id a) ident) eqn:E.
  - simpl. now rewrite Hid, jsstring_eqb_refl.
  - simpl. rewrite E. now apply IH.
Qed.

Lemma length_replace_first (ident : jsstring) (new : node) (l : list node) :
  List.length (replace_first ident new l) = List.length l.
Proof.
  induction l as [|a r IH]; [reflexivity|]. simpl.
  destruct (jsstring_eqb (node_id a) ident); simpl; [reflexivity|].
  now rewrite IH.
Qed.

Lemma getElementById_id (ident : jsstring) (w : World) (n : node) :
  getElementById ident w = Some n -> node_id n = ident.
Proof.
  unfold getElementById. intros H. apply find_some in H.
  destruct H as [_ H]. now apply jsstring_eqb_eq in H.
Qed.

Lemma replace_first_split (ident : jsstring) (l : list node) (n : node) :
  List.find (fun k => jsstring_eqb (node_id k) ident) l = Some n ->
  exists pre post : list node,
    l = pre ++ n :: post
    /\ (forall k, In k pre -> node_id k <> ident)
    /\ forall new : node, replace_first ident new l = pre ++ new :: post.
Proof.
  induction l as [|a r IH]; intros Hfind; [discriminate Hfind|].
  cbn [List.find replace_first] in *.
  destruct (jsstring_eqb (node_id a) ident) eqn:E.
  - injection Hfind as <-. exists [], r.
    split; [reflexivity|]. split; [intros k []|]. intros new. reflexivity.
  - destruct (IH Hfind) as (pre & post & -> & Hpre & Hrep).
    exists (a :: pre), post. split; [reflexivity|]. split.
    + intros k [<- | Hk]; [|now apply Hpre].
      intros Heq. rewrite Heq, jsstring_eqb_refl in E. discriminate E.
    + intros new. rewrite Hrep. reflexivity.
Qed.

Section ClickFacts.
Context (libs : Libs).

(** X21. A click on a result whose page is shown places the highlight of
    its line on that page: the page then holds exactly one highlight, the
    one computed from the box of the line, and it stays where it was in
    the container, the pages before it and after it being the same; the
    document, the corpus, the set of rendered pages and the console stay,
    and one timer of 6000 ms is added. *)
Theorem click_highlights_line (it : Line.t) (w : World) (pdf : Pdf)
    (wrapper : node) (page : Page) (rect : Rect4) :
  gPdf w = Some pdf ->
  getElementById (page_id (Line.pageNum it)) w = Some wrapper ->
  getPage pdf (Line.pageNum it) = Normal page ->
  convertToViewportRectangle (getViewport page (3 # 2))
    (Line.x it, Line.y it, Line.x it + Line.width it,
     Line.y it + Line.height it) = Normal rect ->
  exists w' : World,
    clickResult libs it w = (Normal tt, w')
    /\ getElementById (page_id (Line.pageNum it)) w' =
       Some (appendChild (remove_highlights wrapper) (highlight_element rect))
    /\ count_highlights
         (appendChild (remove_highlights wrapper) (highlight_element rect))
       = 1%nat
    /\ (exists pre post : list node,
          pdfContainer w = pre ++ wrapper :: post
          /\ (forall k, In k pre ->
                node_id k <> page_id (Line.pageNum it))
          /\ pdfContainer w' =
             pre ++ appendChild (remove_highlights wrapper)
                      (highlight_element rect) :: post)
    /\ List.length (pdfContainer w') = List.length (pdfContainer w)
    /\ gPdf w' = gPdf w /\ corpus w' = corpus w
    /\ renderedPages w' = renderedPages w
    /\ console w' = console w
    /\ timers w' = timers w ++ [(6000%N, highlight_element rect)].
Proof.
  intros Hdoc Hel Hpage Hconv. eexists. split.
  - unfold clickResult, ensurePageRendered, highlightMatch.
    cbv [mbind M_bind gets mret M_ret try_catch console_log modify await
         throw box_of_line or_default box_x box_y box_width box_height].
    repeat (progress (rewrite ?Hdoc, ?Hel, ?Hpage, ?Hconv; cbv beta iota)).
    reflexivity.
  - cbn [pdfContainer gPdf corpus renderedPages console timers
         set_pdfContainer set_timers].
    split.
    { unfold getElementById. cbn [pdfContainer set_pdfContainer set_timers].
      apply (@find_replace_first _ _ wrapper); [exact Hel|].
      rewrite node_id_appendChild, node_id_remove_highlights.
      exact (getElementById_id _ _ Hel). }
    split; [apply count_after_highlight|].
    split.
    { destruct (@replace_first_split _ _ _ Hel)
        as (pre & post & Hl & Hpre & Hrep).
      exists pre, post. split; [exact Hl|]. split; [exact Hpre|].
      apply Hrep. }
    split; [apply length_replace_first|].
    repeat split; reflexivity.
Qed.

(** X22. When the viewport cannot convert the box of the line, the click
    still ends normally: the page is kept, without any highlight, and the
    failure is a warning in the console. *)
Theorem click_survives_bad_geometry (it : Line.t) (w : World) (pdf : Pdf)
    (wrapper : node) (page : Page) (e : exn) :
  gPdf w = Some pdf ->
  getElementById (page_id (Line.pageNum it)) w = Some wrapper ->
  getPage pdf (Line.pageNum it) = Normal page ->
  convertToViewportRectangle (getViewport page (3 # 2))
    (Line.x it, Line.y it, Line.x it + Line.width it,
     Line.y it + Line.height it) = Throw e ->
  exists w' : World,
    clickResult libs it w = (Normal tt, w')
    /\ getElementById (page_id (Line.pageNum it)) w' =
       Some (remove_highlights wrapper)
    /\ count_highlights (remove_highlights wrapper) = O
    /\ List.length (pdfContainer w') = List.length (pdfContainer w)
    /\ gPdf w' = gPdf w /\ corpus w' = corpus w
    /\ console w' = console w ++ [("Highlight failed"%string, e)]
    /\ timers w' = timers w.
Proof.
  intros Hdoc Hel Hpage Hconv. eexists. split.
  - unfold clickResult, ensurePageRendered, highlightMatch.
    cbv [mbind M_bind gets mret M_ret try_catch console_log modify await
         throw box_of_line or_default box_x box_y box_width box_height].
    repeat (progress (rewrite ?Hdoc, ?Hel, ?Hpage, ?Hconv; cbv beta iota)).
    reflexivity.
  - cbn [pdfContainer gPdf corpus renderedPages console timers
         set_pdfContainer set_console].
    split.
    { unfold getElementById. cbn [pdfContainer set_pdfContainer set_console].
      apply (@find_replace_first _ _ wrapper); [exact Hel|].
      rewrite node_id_remove_highlights.
      exact (getElementById_id _ _ Hel). }
    split; [apply count_remove_highlights|].
    split; [apply length_replace_first|].
    repeat split; reflexivity.
Qed.
End ClickFacts.

Lemma click_highlights_line_witness :
  exists w' : World,
    clickResult sample_libs hello_world (two_shown_world two_page_pdf)
      = (Normal tt, w')
    /\ getElementById (page_id (Line.pageNum hello_world)) w' =
       Some (appendChild (remove_highlights highlighted_page)
               (highlight_element
                  (Line.x hello_world, Line.y hello_world,
                   Line.x hello_world + Line.width hello_world,
                   Line.y hello_world + Line.height hello_world)))
    /\ count_highlights
         (appendChild (remove_highlights highlighted_page)
            (highlight_element
               (Line.x hello_world, Line.y hello_world,
                Line.x hello_world + Line.width hello_world,
                Line.y hello_world + Line.height hello_world)))
       = 1%nat
    /\ (exists pre post : list node,
          pdfContainer (two_shown_world two_page_pdf)
          = pre ++ highlighted_page :: post
          /\ (forall k, In k pre ->
                node_id k <> page_id (Line.pageNum hello_world))
          /\ pdfContainer w' =
             pre ++ appendChild (remove_highlights highlighted_page)
                      (highlight_element
                         (Line.x hello_world, Line.y hello_world,
                          Line.x hello_world + Line.width hello_world,
                          Line.y hello_world + Line.height hello_world))
                 :: post)
    /\ List.length (pdfContainer w')
       = List.length (pdfContainer (two_shown_world two_page_pdf))
    /\ gPdf w' = gPdf (two_shown_world two_page_pdf)
    /\ corpus w' = corpus (two_shown_world two_page_pdf)
    /\ renderedPages w' = renderedPages (two_shown_world two_page_pdf)
    /\ console w' = console (two_shown_world two_page_pdf)
    /\ timers w' =
       timers (two_shown_world two_page_pdf)
       ++ [(6000%N,
            highlight_element
              (Line.x hello_world, Line.y hello_world,
               Line.x hello_world + Line.width hello_world,
               Line.y hello_world + Line.height hello_world))].
Proof.
  apply (@click_highlights_line sample_libs hello_world
           (two_shown_world two_page_pdf) two_page_pdf highlighted_page
           first_page);
    reflexivity.
Defined.

Lemma click_survives_bad_geometry_witness :
  exists w' : World,
    clickResult sample_libs hello_world (shown_world broken_geometry_pdf)
      = (Normal tt, w')
    /\ getElementById (page_id (Line.pageNum hello_world)) w' =
       Some (remove_highlights highlighted_page)
    /\ count_highlights (remove_highlights highlighted_page) = O
    /\ List.length (pdfContainer w')
       = List.length (pdfContainer (shown_world broken_geometry_pdf))
    /\ gPdf w' = gPdf (shown_world broken_geometry_pdf)
    /\ corpus w' = corpus (shown_world broken_geometry_pdf)
    /\ console w' =
       console (shown_world broken_geometry_pdf)
       ++ [("Highlight failed"%string, "bad viewport"%string)]
    /\ timers w' = timers (shown_world broken_geometry_pdf).
Proof.
  apply (@click_survives_bad_geometry sample_libs hello_world
           (shown_world broken_geometry_pdf) broken_geometry_pdf
           highlighted_page broken_geometry_page "bad viewport"%string);
    reflexivity.
Defined.

(** ** Rows are anchored at their first fragment *)

Lemma Qle_bool_false (a b : Q) : Qle_bool a b = false -> b < a.
Proof.
  intros H. apply Qnot_le_lt. intros Hle.
  apply Qle_bool_iff in Hle. rewrite Hle in H. discriminate H.
Qed.

Lemma row_from_anchored (items : list Item.t) :
  forall y0 : Q,
  (forall it, In it (fst (row_from y0 items)) ->
     Qabs (js_sub y0 (tx5 it)) <= 3)
  /\ anchored y0 (snd (row_from y0 items)).
Proof.
  induction items as [|it r IH]; intros y0.
  - split; [intros it [] | exact I].
  - cbn [row_from].
    destruct (Qle_bool (Qabs (js_sub y0 (tx5 it))) 3) eqn:E.
    + destruct (IH y0) as [Hg Hgs].
      destruct (row_from y0 r) as [g gs]. cbn [fst snd] in *.
      split; [|exact Hgs].
      intros it' [<- | Hin]; [now apply Qle_bool_iff | now apply Hg].
    + destruct (IH (tx5 it)) as [Hg Hgs].
      destruct (row_from (tx5 it) r) as [g gs]. cbn [fst snd] in *.
      split; [intros it' []|].
      cbn [anchored fst snd]. split; [now apply Qle_bool_false|].
      split; assumption.
Qed.

Lemma anchored_rows (gs : list (Item.t * list Item.t)) :
  forall y0 : Q,
  anchored y0 gs ->
  (forall row it, In row gs -> In it (snd row) ->
     Qabs (js_sub (tx5 (fst row)) (tx5 it)) <= 3)
  /\ (forall k r1 r2,
        nth_error gs k = Some r1 -> nth_error gs (S k) = Some r2 ->
        3 < Qabs (js_sub (tx5 (fst r1)) (tx5 (fst r2)))).
Proof.
  induction gs as [|r rest IH]; intros y0 H.
  - split; [intros ? ? [] | intros k r1 r2 Hk; destruct k; discriminate Hk].
  - cbn [anchored] in H. destruct H as (_ & Hin & Hrest).
    destruct (IH _ Hrest) as [IH1 IH2]. split.
    + intros row it [<- | Hrow]; [apply Hin | now apply IH1].
    + intros k r1 r2 H1 H2. destruct k as [|k].
      * injection H1 as <-. destruct rest as [|r' rest']; [discriminate H2|].
        injection H2 as <-. cbn [anchored] in Hrest. tauto.
      * exact (IH2 k r1 r2 H1 H2).
Qed.

Lemma rows_anchored (items : list Item.t) :
  (forall row it, In row (rows items) -> In it (snd row) ->
     Qabs (js_sub (tx5 (fst row)) (tx5 it)) <= 3)
  /\ (forall k r1 r2,
        nth_error (rows items) k = Some r1 ->
        nth_error (rows items) (S k) = Some r2 ->
        3 < Qabs (js_sub (tx5 (fst r1)) (tx5 (fst r2)))).
Proof.
  destruct items as [|it r].
  - split; [intros ? ? [] | intros k r1 r2 Hk; destruct k; discriminate Hk].
  - cbn [rows].
    destruct (row_from_anchored r (tx5 it)) as [Hg Hgs].
    destruct (row_from (tx5 it) r) as [g gs]. cbn [fst snd] in *.
    destruct (anchored_rows _ _ Hgs) as [H1 H2]. split.
    + intros row it' [<- | Hrow]; [exact (Hg it') | now apply H1].
    + intros k r1 r2 Hk1 Hk2. destruct k as [|k].
      * injection Hk1 as <-. destruct gs as [|r' gs']; [discriminate Hk2|].
        injection Hk2 as <-. cbn [anchored fst] in Hgs. tauto.
      * exact (H2 k r1 r2 Hk1 Hk2).
Qed.

(** X23. The lines of a page are its rows, and a row is anchored at its
    first fragment: for every fragment merged into a line, the distance of
    its [y] to the [y] of the first fragment of that line, not of the
    fragment before it, is at most 3 as the loop computes it (the exact
    difference rounded to the nearest double), hence at most [3 + 2^-52]
    exactly; for the first fragment of the next line, the computed
    distance to that same [y] is above 3, hence the exact one above
    [3 + 2^-52]. *)
Theorem rows_anchored_at_first (i : nat) (items : list Item.t) :
  flush (line_loop i items) = map (row_line i) (rows items)
  /\ concat (map row_items (rows items)) = items
  /\ (forall row it, In row (rows items) -> In it (snd row) ->
        Qabs (round64 (tx5 (fst row) - tx5 it)) <= 3
        /\ Qabs (tx5 (fst row) - tx5 it) <= 3 + pow2 (-52))
  /\ (forall k r1 r2,
        nth_error (rows items) k = Some r1 ->
        nth_error (rows items) (S k) = Some r2 ->
        3 < Qabs (round64 (tx5 (fst r1) - tx5 (fst r2)))
        /\ 3 + pow2 (-52) < Qabs (tx5 (fst r1) - tx5 (fst r2))).
Proof.
  split; [apply flush_line_loop|]. split; [apply rows_concat|].
  destruct (rows_anchored items) as [H1 H2]. split.
  - intros row it Hrow Hit. pose proof (H1 row it Hrow Hit) as H.
    split; [exact H | now apply round64_test_3].
  - intros k r1 r2 Hk1 Hk2. pose proof (H2 k r1 r2 Hk1 Hk2) as H.
    split; [exact H|].
    apply Qnot_le_lt. intros Hle. apply round64_test_3 in Hle.
    exact (Qlt_not_le _ _ H Hle).
Qed.

(** Fragments drifting by 3 units each do not stay in one line. *)
Example drift_opens_a_new_line :
  List.length
    (page_lines 1 [fragment "a" 0 0 5; fragment "b" 10 3 5;
                   fragment "c" 20 6 5]) = 2%nat.
Proof. reflexivity. Qed.

Lemma normalize_lines_nil (lines : list Line.t) :
  normalize_lines lines = [] <->
  concat (map words (map Line.text lines)) = [].
Proof.
  induction lines as [|l lines IH]; [tauto|].
  cbn [normalize_lines flat_map map concat].
  fold (normalize_lines lines).
  destruct (normalize (Line.text l)) as [|c t] eqn:E.
  - rewrite (normalize_nil_words _ E). simpl. exact IH.
  - assert (Hw : words (Line.text l) <> []).
    { intros Hw. rewrite normalize_words, Hw in E. discriminate E. }
    simpl. split; [discriminate|].
    intros H. apply app_eq_nil in H. tauto.
Qed.

(** X24. A page gives no line exactly when its fragments hold nothing but
    white space (in particular when it has no fragment). *)
Theorem no_line_iff_blank_page (i : nat) (items : list Item.t) :
  page_lines i items = [] <-> concat (map words (map item_str items)) = [].
Proof.
  rewrite <- (words_page_lines i items). unfold page_lines.
  rewrite words_normalize_lines. apply normalize_lines_nil.
Qed.

Lemma reload_forgets_previous_session_witness :
  loadPdfFile sample_libs (Some (sample_file "application/pdf"))
    (shown_world two_page_pdf)
  = loadPdfFile sample_libs (Some (sample_file "application/pdf"))
      (world_with None "hello").
Proof.
  apply (@reload_forgets_previous_session sample_libs
           (sample_file "application/pdf") (shown_world two_page_pdf)
           (world_with None "hello"));
    reflexivity.
Defined.
